(** * Filters and result limiter of the close-approach query engine

    A shallow embedding of [filters.py]: the [AttributeFilter] family of
    one-argument predicates on close approaches, [create_filters], which
    builds the fixed collection of ten filters from the optional criteria,
    and [limit], which caps an iterator with [itertools.islice]; and of the
    part of [load_approaches] in [extract.py] that turns the parsed JSON
    into close approaches.

    Python values are embedded as a small tagged union, exceptions as the
    error side of a result type, and iterators as state machines with an
    explicit [next] function. *)

From Stdlib Require Import ZArith List Bool Lia.
From Stdlib Require Import Floats.SpecFloat.
From Stdlib Require String Ascii.
Import String.StringSyntax.
Delimit Scope string_scope with string.
Bind Scope string_scope with String.string.
Import ListNotations.

Open Scope Z_scope.

(** ** Exceptions and results *)

(** The exceptions that the modelled code can raise.  [UnsupportedCriterionError]
    is the class declared in [filters.py]; [TypeError] and [ValueError] are the
    builtin ones raised by an ordering comparison of unrelated values and by
    [itertools.islice]; [SourceError] stands for whatever an iterator handed
    to [limit] may raise from its own [__next__]. *)
Inductive exn : Type :=
| UnsupportedCriterionError
| TypeError
| ValueError
| SourceError (code : Z).

Inductive res (A : Type) : Type :=
| Ok (a : A)
| Err (e : exn).

Arguments Ok {A} a.
Arguments Err {A} e.

Definition bind {A B : Type} (m : res A) (k : A -> res B) : res B :=
  match m with
  | Ok a => k a
  | Err e => Err e
  end.

Notation "x <- m ;; k" := (bind m (fun x => k))
  (at level 61, m at next level, right associativity).

(** ** Python values *)

(** A calendar date, [datetime.date]. *)
Record date : Type := mkDate { year : Z; month : Z; day : Z }.

(** A timestamp, [datetime.datetime]; its [date()] method drops the time of
    day. *)
Record datetime : Type := mkDatetime { dt_date : date; hour : Z; minute : Z }.

Definition datetime_date (t : datetime) : date := dt_date t.

(** The values that reach a filter: [None], booleans, integers, floats
    (IEEE 754 values, [S754_nan] being [float('nan')]) and dates. *)
Inductive pyval : Type :=
| VNone
| VBool (b : bool)
| VInt (z : Z)
| VFloat (f : spec_float)
| VDate (d : date).

Definition is_None (v : pyval) : bool :=
  match v with
  | VNone => true
  | _ => false
  end.

(** Numbers: [bool] is a subclass of [int] in Python, so a boolean compares
    as 0 or 1. *)
Inductive num : Type :=
| NInt (z : Z)
| NFloat (f : spec_float).

Definition as_num (v : pyval) : option num :=
  match v with
  | VBool b => Some (NInt (if b then 1 else 0))
  | VInt z => Some (NInt z)
  | VFloat f => Some (NFloat f)
  | VNone | VDate _ => None
  end.

Definition is_numeric (v : pyval) : bool :=
  match as_num v with
  | Some _ => true
  | None => false
  end.

Definition is_nan (f : spec_float) : bool :=
  match f with
  | S754_nan => true
  | _ => false
  end.

(** Exact comparison of an integer with a float, as Python performs it: a NaN
    is unordered, an infinity is beyond every integer, and a finite float
    [(-1)^s * m * 2^e] is compared without rounding. *)
Definition int_float_compare (z : Z) (f : spec_float) : option comparison :=
  match f with
  | S754_nan => None
  | S754_infinity s => Some (if s then Gt else Lt)
  | S754_zero _ => Some (z ?= 0)
  | S754_finite s m e =>
      let sm := if s then Z.neg m else Z.pos m in
      Some (if 0 <=? e then z ?= sm * 2 ^ e else z * 2 ^ (- e) ?= sm)
  end.

(** Comparison of two numbers; [None] when one of them is a NaN. *)
Definition num_compare (x y : num) : option comparison :=
  match x, y with
  | NInt a, NInt b => Some (a ?= b)
  | NFloat f, NFloat g => SFcompare f g
  | NInt a, NFloat g => int_float_compare a g
  | NFloat f, NInt b => option_map CompOpp (int_float_compare b f)
  end.

(** Dates are ordered by year, then month, then day. *)
Definition date_compare (d1 d2 : date) : comparison :=
  match year d1 ?= year d2 with
  | Eq =>
      match month d1 ?= month d2 with
      | Eq => day d1 ?= day d2
      | c => c
      end
  | c => c
  end.

(** *** The comparators of the [operator] module *)

Inductive comparator : Type := op_eq | op_ge | op_le.

Definition is_Eq (c : option comparison) : bool :=
  match c with
  | Some Eq => true
  | _ => false
  end.

Definition is_Le (c : option comparison) : bool :=
  match c with
  | Some Lt | Some Eq => true
  | _ => false
  end.

Definition is_Ge (c : option comparison) : bool :=
  match c with
  | Some Gt | Some Eq => true
  | _ => false
  end.

(** [a == b]: never raises; values of unrelated types are unequal. *)
Definition py_eq (a b : pyval) : res bool :=
  match as_num a, as_num b with
  | Some x, Some y => Ok (is_Eq (num_compare x y))
  | _, _ =>
      match a, b with
      | VDate d1, VDate d2 => Ok (is_Eq (Some (date_compare d1 d2)))
      | VNone, VNone => Ok true
      | _, _ => Ok false
      end
  end.

(** [a >= b] and [a <= b]: defined between numbers and between dates, a
    [TypeError] otherwise. *)
Definition py_ge (a b : pyval) : res bool :=
  match as_num a, as_num b with
  | Some x, Some y => Ok (is_Ge (num_compare x y))
  | _, _ =>
      match a, b with
      | VDate d1, VDate d2 => Ok (is_Ge (Some (date_compare d1 d2)))
      | _, _ => Err TypeError
      end
  end.

Definition py_le (a b : pyval) : res bool :=
  match as_num a, as_num b with
  | Some x, Some y => Ok (is_Le (num_compare x y))
  | _, _ =>
      match a, b with
      | VDate d1, VDate d2 => Ok (is_Le (Some (date_compare d1 d2)))
      | _, _ => Err TypeError
      end
  end.

Definition apply_op (o : comparator) (a b : pyval) : res bool :=
  match o with
  | op_eq => py_eq a b
  | op_ge => py_ge a b
  | op_le => py_le a b
  end.

(** ** The records the filters read *)

(** Modelled from the spec: the entity classes [NearEarthObject] and
    [CloseApproach] live in [models.py], which is not among the sources.  A
    near-Earth object has a diameter, which may be unknown, and a boolean
    hazardous flag; [extract.py] reads the diameter column with pandas, so an
    unmeasured diameter arrives as the float NaN. *)
Record NearEarthObject : Type := mkNEO {
  diameter : spec_float;
  hazardous : bool
}.

(** Modelled from the spec: a close approach has a timestamp, a nominal
    distance, a relative velocity and a reference to its near-Earth object. *)
Record CloseApproach : Type := mkApproach {
  time : datetime;
  distance : spec_float;
  velocity : spec_float;
  neo : NearEarthObject
}.

Definition diameter_unknown (approach : CloseApproach) : bool :=
  is_nan (diameter (neo approach)).

(** ** The filter classes *)

(** [AttributeFilter] and its five subclasses; a class is what selects the
    [get] classmethod. *)
Inductive filter_class : Type :=
| AttributeFilterClass
| DateFilterClass
| DistanceFilterClass
| VelocityFilterClass
| DiameterFilterClass
| HazardousFilterClass.

(** An instance: [__init__] stores the comparator and the reference value. *)
Record AttributeFilter : Type := mkFilter {
  cls : filter_class;
  op : comparator;
  value : pyval
}.

Definition BaseFilter (o : comparator) (v : pyval) :=
  mkFilter AttributeFilterClass o v.
Definition DateFilter (o : comparator) (v : pyval) :=
  mkFilter DateFilterClass o v.
Definition DistanceFilter (o : comparator) (v : pyval) :=
  mkFilter DistanceFilterClass o v.
Definition VelocityFilter (o : comparator) (v : pyval) :=
  mkFilter VelocityFilterClass o v.
Definition DiameterFilter (o : comparator) (v : pyval) :=
  mkFilter DiameterFilterClass o v.
Definition HazardousFilter (o : comparator) (v : pyval) :=
  mkFilter HazardousFilterClass o v.

(** The [get] classmethod, dispatched on the class: the base class raises,
    each subclass fetches its attribute. *)
Definition get (c : filter_class) (approach : CloseApproach) : res pyval :=
  match c with
  | AttributeFilterClass => Err UnsupportedCriterionError
  | DateFilterClass => Ok (VDate (datetime_date (time approach)))
  | DistanceFilterClass => Ok (VFloat (distance approach))
  | VelocityFilterClass => Ok (VFloat (velocity approach))
  | DiameterFilterClass => Ok (VFloat (diameter (neo approach)))
  | HazardousFilterClass => Ok (VBool (hazardous (neo approach)))
  end.

(** [__call__], instrumented: the second component counts the invocations of
    [get] made during the call. *)
Definition call_traced (self : AttributeFilter) (approach : CloseApproach)
  : res bool * nat :=
  if is_None (value self) then (Ok true, 0%nat)
  else (x <- get (cls self) approach ;;
        apply_op (op self) x (value self), 1%nat).

Definition call (self : AttributeFilter) (approach : CloseApproach) : res bool :=
  fst (call_traced self approach).

Definition get_calls (self : AttributeFilter) (approach : CloseApproach) : nat :=
  snd (call_traced self approach).

(** ** [create_filters] *)

Definition append {A : Type} (l : list A) (x : A) : list A := l ++ [x].

Definition create_filters
  (date start_date end_date distance_min distance_max
   velocity_min velocity_max diameter_min diameter_max hazardous : pyval)
  : list AttributeFilter :=
  let filters := [] in
  let filters := append filters (DateFilter op_eq date) in
  let filters := append filters (DateFilter op_ge start_date) in
  let filters := append filters (DateFilter op_le end_date) in
  let filters := append filters (DistanceFilter op_ge distance_min) in
  let filters := append filters (DistanceFilter op_le distance_max) in
  let filters := append filters (VelocityFilter op_ge velocity_min) in
  let filters := append filters (VelocityFilter op_le velocity_max) in
  let filters := append filters (DiameterFilter op_ge diameter_min) in
  let filters := append filters (DiameterFilter op_le diameter_max) in
  let filters := append filters (HazardousFilter op_eq hazardous) in
  filters.

(** Modelled from the spec: the query step belongs to the database module,
    which is not among the sources.  A candidate matches a predicate set when
    every predicate evaluates true on it, tested in order with early exit. *)
Fixpoint matches (filters : list AttributeFilter) (approach : CloseApproach)
  : res bool :=
  match filters with
  | [] => Ok true
  | f :: rest =>
      b <- call f approach ;;
      if b then matches rest approach else Ok false
  end.

(** ** The predicates as the specification words them *)

(** A predicate of the specification, on the value [x] of its field: true
    when the reference value is absent, otherwise the comparison of the
    field value with the reference value. *)
Definition spec_predicate (o : comparator) (x v : pyval) : res bool :=
  match v with
  | VNone => Ok true
  | _ => apply_op o x v
  end.

(** ** [create_filters] and the objects it touches *)

(** The list objects that exist when [create_filters] is called: a heap of
    lists of filters, a list being referred to by its position. *)
Definition heap : Type := list (list AttributeFilter).

(** [[]]: a new, empty list object. *)
Definition new_list (h : heap) : nat * heap := (length h, h ++ [[]]).

(** [ref.append(x)]: the list object at [ref] is extended in place. *)
Fixpoint list_append (h : heap) (ref : nat) (x : AttributeFilter) : heap :=
  match h, ref with
  | [], _ => []
  | l :: t, O => append l x :: t
  | l :: t, Datatypes.S r => l :: list_append t r x
  end.

(** The body of [create_filters] statement by statement, on the heap: the
    reference it returns and the heap it leaves. *)
Definition create_filters_in (h : heap)
  (date start_date end_date distance_min distance_max
   velocity_min velocity_max diameter_min diameter_max hazardous : pyval)
  : nat * heap :=
  let (filters, h) := new_list h in
  let h := list_append h filters (DateFilter op_eq date) in
  let h := list_append h filters (DateFilter op_ge start_date) in
  let h := list_append h filters (DateFilter op_le end_date) in
  let h := list_append h filters (DistanceFilter op_ge distance_min) in
  let h := list_append h filters (DistanceFilter op_le distance_max) in
  let h := list_append h filters (VelocityFilter op_ge velocity_min) in
  let h := list_append h filters (VelocityFilter op_le velocity_max) in
  let h := list_append h filters (DiameterFilter op_ge diameter_min) in
  let h := list_append h filters (DiameterFilter op_le diameter_max) in
  let h := list_append h filters (HazardousFilter op_eq hazardous) in
  (filters, h).

(** ** Reflexivity of a field against its own value *)

Definition is_nan_value (v : pyval) : bool :=
  match v with
  | VFloat f => is_nan f
  | _ => false
  end.

(** The three comparison kinds, each with the candidate's own field value as
    reference, all accept the candidate. *)
Definition reflexive_at_boundary (c : filter_class) (approach : CloseApproach)
  : Prop :=
  forall v, get c approach = Ok v ->
    call (mkFilter c op_eq v) approach = Ok true /\
    call (mkFilter c op_ge v) approach = Ok true /\
    call (mkFilter c op_le v) approach = Ok true.

(** ** Iterators *)

(** [sys.maxsize], the largest index the interpreter accepts: [2^63 - 1] on
    a 64-bit build. *)
Definition sys_maxsize : Z := 9223372036854775807.

(** An iterator is a state together with its [__next__] method, which from a
    state either produces an item, signals [StopIteration] or raises, and in
    every case leaves the iterator in a new state.  Nothing is assumed about
    the state space: a source may be infinite and need not be restartable. *)
Section Iterators.

Context {A : Type}.

Inductive outcome : Type :=
| Item (x : A)
| StopIteration
| Raise (e : exn).

(** How a consumer's loop over an iterator ends; [Pending] when the loop
    was cut after the number of steps it was allowed. *)
Inductive ending : Type :=
| Exhausted
| Failed (e : exn)
| Pending.

Section Consumer.

Context {S : Type}.
Variable next : S -> outcome * S.

(** A consumer calling [next] at most [fuel] times: the items obtained, how
    the loop ended, and the state the iterator is left in. *)
Fixpoint drain (fuel : nat) (s : S) : list A * ending * S :=
  match fuel with
  | O => ([], Pending, s)
  | Datatypes.S fuel' =>
      match next s with
      | (Item x, s') =>
          let '(xs, e, sf) := drain fuel' s' in (x :: xs, e, sf)
      | (StopIteration, s') => ([], Exhausted, s')
      | (Raise e, s') => ([], Failed e, s')
      end
  end.

(** The first [n] draws, when each of them produces an item. *)
Fixpoint draw_n (n : nat) (s : S) : option (list A * S) :=
  match n with
  | O => Some ([], s)
  | Datatypes.S n' =>
      match next s with
      | (Item x, s') =>
          match draw_n n' s' with
          | Some (xs, sf) => Some (x :: xs, sf)
          | None => None
          end
      | _ => None
      end
  end.

(** The same iterator with a counter of the calls made to its [next]. *)
Definition counted (sc : S * nat) : outcome * (S * nat) :=
  let (o, s') := next (fst sc) in (o, (s', Datatypes.S (snd sc))).

(** *** [itertools.islice] *)

(** An [islice] object over the source: the wrapped iterator, the number
    of items passed on so far and the stop index ([None] for no stop). *)
Record islice : Type := mkIslice {
  it : S;
  cnt : Z;
  stop : option Z
}.

(** [itertools.islice(iterator, start, stop)]: the arguments are checked
    when the object is built, before anything is drawn.  A stop index must
    be [None] or an integer with [0 <= stop <= sys.maxsize]. *)
Definition islice_new (iterator : S) (start : Z) (stop : option Z)
  : res islice :=
  if start <? 0 then Err ValueError
  else
    match stop with
    | None => Ok (mkIslice iterator 0 None)
    | Some n =>
        if n <? 0 then Err ValueError
        else if sys_maxsize <? n then Err ValueError
        else Ok (mkIslice iterator 0 (Some n))
    end.

Definition stop_reached (i : islice) : bool :=
  match stop i with
  | Some n => n <=? cnt i
  | None => false
  end.

(** [__next__] of an [islice] started at 0: once the stop index is
    reached it ends without touching the source, otherwise it draws one
    item from the source and passes it on. *)
Definition islice_next (i : islice) : outcome * islice :=
  if stop_reached i then (StopIteration, i)
  else
    match next (it i) with
    | (Item x, s') => (Item x, mkIslice s' (cnt i + 1) (stop i))
    | (o, s') => (o, mkIslice s' (cnt i) (stop i))
    end.

(** *** [limit] *)

(** [n == 0] for an optional integer. *)
Definition eq_zero (n : option Z) : bool :=
  match n with
  | Some z => z =? 0
  | None => false
  end.

Definition limit (iterator : S) (n : option Z) : res islice :=
  let n := if eq_zero n then None else n in
  islice_new iterator 0 n.

End Consumer.

(** A list seen as an iterator over its elements. *)
Definition list_next (l : list A) : outcome * list A :=
  match l with
  | [] => (StopIteration, [])
  | x :: t => (Item x, t)
  end.

End Iterators.

Arguments outcome A : clear implicits.
Arguments islice S : clear implicits.

(** What a consumer observes of a drained iterator: the items and the way
    the loop ended. *)
Definition observed {A S : Type} (r : list A * ending * S) : list A * ending :=
  fst r.

(** A source of the integers from a starting point that raises once it is
    asked for an item at or beyond position [bad]. *)
Definition failing_next (bad : Z) (n : Z) : outcome Z * Z :=
  if n <? bad then (Item n, n + 1) else (Raise (SourceError n), n + 1).

(** An endless source of integers. *)
Definition count_next (n : Z) : outcome Z * Z := (Item n, n + 1).

(** ** Example candidates *)

Definition jan_1 : date := mkDate 2020 1 1.
Definition jan_2 : date := mkDate 2020 1 2.

(** The floats 0.5 and 10.0. *)
Definition half : spec_float := S754_finite false 1 (-1).
Definition ten : spec_float := S754_finite false 5 1.

(** A hazardous object of known diameter, approaching on 1 January 2020. *)
Definition known_approach : CloseApproach :=
  mkApproach (mkDatetime jan_1 12 0) half ten (mkNEO half true).

(** A non-hazardous object of unknown diameter, approaching a day later. *)
Definition unknown_approach : CloseApproach :=
  mkApproach (mkDatetime jan_2 8 30) half ten (mkNEO S754_nan false).

(** ** Reference values and the field they are compared with *)

(** Whether a reference value is of the kind the class's field has: a date
    for the date filter, a number for the others.  The base class reads no
    field. *)
Definition bound_fits (c : filter_class) (v : pyval) : bool :=
  match c with
  | AttributeFilterClass => false
  | DateFilterClass =>
      match v with
      | VDate _ => true
      | _ => false
      end
  | DistanceFilterClass | VelocityFilterClass | DiameterFilterClass
  | HazardousFilterClass => is_numeric v
  end.

(** Lexicographic comparison of integer triples. *)
Definition lex3 (a b : Z * Z * Z) : comparison :=
  let '(a1, a2, a3) := a in
  let '(b1, b2, b3) := b in
  match a1 ?= b1 with
  | Eq =>
      match a2 ?= b2 with
      | Eq => a3 ?= b3
      | c => c
      end
  | c => c
  end.

(** The place of a float in the order [SFcompare] decides: infinities at the
    ends, zeros in the middle, finite values by sign, exponent and
    mantissa.  A NaN has no place. *)
Definition SFkey (f : spec_float) : option (Z * Z * Z) :=
  match f with
  | S754_nan => None
  | S754_infinity true => Some (-2, 0, 0)
  | S754_infinity false => Some (2, 0, 0)
  | S754_zero _ => Some (0, 0, 0)
  | S754_finite true m e => Some (-1, - e, Z.neg m)
  | S754_finite false m e => Some (1, e, Z.pos m)
  end.

(** ** [__repr__] *)

Definition class_name (c : filter_class) : String.string :=
  match c with
  | AttributeFilterClass => "AttributeFilter"
  | DateFilterClass => "DateFilter"
  | DistanceFilterClass => "DistanceFilter"
  | VelocityFilterClass => "VelocityFilter"
  | DiameterFilterClass => "DiameterFilter"
  | HazardousFilterClass => "HazardousFilter"
  end%string.

(** [__name__] of the comparator. *)
Definition op_name (o : comparator) : String.string :=
  match o with
  | op_eq => "eq"
  | op_ge => "ge"
  | op_le => "le"
  end%string.

Section Repr.

(** How Python formats the reference value inside an f-string (its [str]);
    the text of a float is not modelled, so the formatter is left open. *)
Variable str : pyval -> String.string.

Definition repr (self : AttributeFilter) : String.string :=
  String.append (class_name (cls self))
    (String.append "(op=operator."
       (String.append (op_name (op self))
          (String.append ", value="
             (String.append (str (value self)) ")")))).

End Repr.

(** ** Loading close approaches ([extract.py]) *)

(** What [json.load] returns: [None], booleans, numbers, strings, lists and
    dictionaries with string keys (kept here as the list of their items). *)
#[warnings="-register-all"]
Inductive json : Type :=
| JNull
| JBool (b : bool)
| JInt (z : Z)
| JFloat (f : spec_float)
| JStr (s : String.string)
| JArr (l : list json)
| JObj (m : list (String.string * json)).

(** The exceptions of the loader: a missing dictionary key, an operation on
    a value of the wrong type, and whatever the [CloseApproach] constructor
    raises. *)
Inductive load_exn : Type :=
| KeyError (key : String.string)
| LoadTypeError
| InitError (e : exn).

Inductive lres (A : Type) : Type :=
| LOk (a : A)
| LErr (e : load_exn).

Arguments LOk {A} a.
Arguments LErr {A} e.

Definition lbind {A B : Type} (m : lres A) (k : A -> lres B) : lres B :=
  match m with
  | LOk a => k a
  | LErr e => LErr e
  end.

Notation "x <~ m ;; k" := (lbind m (fun x => k))
  (at level 61, m at next level, right associativity).

(** A list comprehension whose body may raise: elements are processed in
    order and the first exception ends it. *)
Fixpoint mapM {A B : Type} (f : A -> lres B) (l : list A) : lres (list B) :=
  match l with
  | [] => LOk []
  | x :: t => y <~ f x ;; ys <~ mapM f t ;; LOk (y :: ys)
  end.

(** Lookup in the items of a dictionary: the last item with the key is the
    one the dictionary holds. *)
Fixpoint items_lookup (m : list (String.string * json)) (key : String.string)
  : option json :=
  match m with
  | [] => None
  | (k, v) :: t =>
      match items_lookup t key with
      | Some w => Some w
      | None => if String.eqb k key then Some v else None
      end
  end.

(** [j[key]] for a string [key]: defined on dictionaries only. *)
Definition subscript (j : json) (key : String.string) : lres json :=
  match j with
  | JObj m =>
      match items_lookup m key with
      | Some v => LOk v
      | None => LErr (KeyError key)
      end
  | _ => LErr LoadTypeError
  end.

(** The characters of a string, each as a string of its own (one byte per
    character). *)
Fixpoint chars (s : String.string) : list json :=
  match s with
  | String.EmptyString => []
  | String.String c t => JStr (String.String c String.EmptyString) :: chars t
  end.

(** The keys of a dictionary in the order of their first insertion. *)
Fixpoint keys_of (m : list (String.string * json)) (seen : list String.string)
  : list json :=
  match m with
  | [] => []
  | (k, _) :: t =>
      if existsb (String.eqb k) seen then keys_of t seen
      else JStr k :: keys_of t (k :: seen)
  end.

(** Iterating over a value: the elements of a list, the characters of a
    string, the keys of a dictionary; anything else is not iterable. *)
Definition iterate (j : json) : lres (list json) :=
  match j with
  | JArr l => LOk l
  | JStr s => LOk (chars s)
  | JObj m => LOk (keys_of m [])
  | JNull | JBool _ | JInt _ | JFloat _ => LErr LoadTypeError
  end.

(** Lists and dictionaries cannot be dictionary keys. *)
Definition hashable (j : json) : bool :=
  match j with
  | JArr _ | JObj _ => false
  | _ => true
  end.

(** [dict(pairs)], kept as the pairs it was built from; an unhashable key
    raises as soon as it is met. *)
Fixpoint build_dict (pairs : list (json * json)) : lres (list (json * json)) :=
  match pairs with
  | [] => LOk []
  | (k, v) :: t =>
      if hashable k then d <~ build_dict t ;; LOk ((k, v) :: d)
      else LErr LoadTypeError
  end.

Definition is_key (k : json) (key : String.string) : bool :=
  match k with
  | JStr s => String.eqb s key
  | _ => false
  end.

(** The value a dictionary built from [d] holds for a string key: that of
    the last pair with this key. *)
Fixpoint dict_lookup (d : list (json * json)) (key : String.string)
  : option json :=
  match d with
  | [] => None
  | (k, v) :: t =>
      match dict_lookup t key with
      | Some w => Some w
      | None => if is_key k key then Some v else None
      end
  end.

(** [d[key]]. *)
Definition dict_get (d : list (json * json)) (key : String.string)
  : lres json :=
  match dict_lookup d key with
  | Some v => LOk v
  | None => LErr (KeyError key)
  end.

Section Extract.

(** The class [CloseApproach] belongs to [models.py], which is not among the
    sources; its constructor, applied to the designation, the time, the
    distance and the velocity of a row, is a parameter. *)
Context {T : Type}.
Variable CloseApproach_init : json -> json -> json -> json -> lres T.

(** [dict(zip(json_data["fields"], data))] for one row. *)
Definition row_dict (json_data data : json) : lres (list (json * json)) :=
  fields <~ subscript json_data "fields" ;;
  names <~ iterate fields ;;
  cells <~ iterate data ;;
  build_dict (combine names cells).

Definition approach_of_dict (d : list (json * json)) : lres T :=
  des <~ dict_get d "des" ;;
  cd <~ dict_get d "cd" ;;
  dist <~ dict_get d "dist" ;;
  v_rel <~ dict_get d "v_rel" ;;
  CloseApproach_init des cd dist v_rel.

(** [load_approaches], from the value [json.load] returned for the file:
    opening and parsing the file are left out. *)
Definition load_approaches (json_data : json) : lres (list T) :=
  rows <~ (data <~ subscript json_data "data" ;; iterate data) ;;
  dict_data <~ mapM (row_dict json_data) rows ;;
  mapM approach_of_dict dict_data.

End Extract.

(** ** Example tables *)

(** A constructor that keeps the four values it is given. *)
Definition keep_args (des cd dist v_rel : json)
  : lres (json * json * json * json) :=
  LOk (des, cd, dist, v_rel).

Definition sample_names : list String.string :=
  ["dist"; "des"; "orbit_id"; "v_rel"; "cd"]%string.

Definition sample_row : list json :=
  [JStr "0.05"; JStr "433"; JStr "7"; JStr "10.1"; JStr "2020-Jan-01 12:00"].

Definition second_row : list json :=
  [JStr "0.0002"; JStr "99942"; JStr "2"; JStr "7.4";
   JStr "2029-Apr-13 21:46"].

Definition table_of (rows : list json) : json :=
  JObj [("fields"%string, JArr (map JStr sample_names));
        ("data"%string, JArr rows)].

(** * Properties of the filters *)

(** ** Comparison lemmas *)

Lemma date_compare_refl (d : date) : date_compare d d = Eq.
Proof.
  unfold date_compare. now rewrite !Z.compare_refl.
Qed.

Lemma date_compare_Lt (a b : date) :
  date_compare a b = Lt <->
  year a < year b \/
  (year a = year b /\
   (month a < month b \/ (month a = month b /\ day a < day b))).
Proof.
  unfold date_compare.
  destruct (Z.compare_spec (year a) (year b));
    destruct (Z.compare_spec (month a) (month b));
    destruct (Z.compare_spec (day a) (day b));
    split; intros; try discriminate; try reflexivity; lia.
Qed.

Lemma date_compare_Gt (a b : date) :
  date_compare a b = Gt <-> date_compare b a = Lt.
Proof.
  unfold date_compare.
  rewrite (Z.compare_antisym (year a) (year b)).
  rewrite (Z.compare_antisym (month a) (month b)).
  rewrite (Z.compare_antisym (day a) (day b)).
  destruct (year a ?= year b); destruct (month a ?= month b);
    destruct (day a ?= day b); simpl; split; intros; congruence.
Qed.

Lemma date_compare_Eq (a b : date) :
  date_compare a b = Eq <->
  year a = year b /\ month a = month b /\ day a = day b.
Proof.
  unfold date_compare.
  destruct (Z.compare_spec (year a) (year b));
    destruct (Z.compare_spec (month a) (month b));
    destruct (Z.compare_spec (day a) (day b));
    split; intros; try discriminate; try reflexivity; lia.
Qed.

(** A date on or after [s] is not on or before an [e] that precedes [s]. *)
Lemma date_window_empty (x s e : date) :
  date_compare e s = Lt ->
  is_Ge (Some (date_compare x s)) = true ->
  is_Le (Some (date_compare x e)) = false.
Proof.
  intros Hes Hge.
  apply date_compare_Lt in Hes.
  destruct (date_compare x e) eqn:Hxe; simpl; try reflexivity; exfalso.
  - apply date_compare_Eq in Hxe.
    destruct (date_compare x s) eqn:Hxs; simpl in Hge; try discriminate.
    + apply date_compare_Eq in Hxs. lia.
    + apply date_compare_Gt, date_compare_Lt in Hxs. lia.
  - apply date_compare_Lt in Hxe.
    destruct (date_compare x s) eqn:Hxs; simpl in Hge; try discriminate.
    + apply date_compare_Eq in Hxs. lia.
    + apply date_compare_Gt, date_compare_Lt in Hxs. lia.
Qed.

Lemma SFcompare_refl (f : spec_float) :
  is_nan f = false -> SFcompare f f = Some Eq.
Proof.
  destruct f as [s | s | | s m e]; simpl; intros H; try discriminate.
  - reflexivity.
  - now destruct s.
  - rewrite Z.compare_refl, Pos.compare_cont_refl. now destruct s.
Qed.

(** A NaN is unordered with every number, on either side. *)
Lemma num_compare_nan_l (y : num) : num_compare (NFloat S754_nan) y = None.
Proof.
  destruct y as [b | g]; reflexivity.
Qed.

(** The value a filter class reads is a date, a float or a boolean; it is
    never [None]. *)
Lemma get_not_None (c : filter_class) (approach : CloseApproach) (v : pyval) :
  get c approach = Ok v -> is_None v = false.
Proof.
  destruct c; simpl; intros H; inversion H; reflexivity.
Qed.

(** A filter that holds a reference value evaluates [get] and then the
    comparator. *)
Lemma call_active (c : filter_class) (o : comparator) (v : pyval)
      (approach : CloseApproach) :
  is_None v = false ->
  call (mkFilter c o v) approach = (x <- get c approach ;; apply_op o x v).
Proof.
  intros H. unfold call, call_traced. simpl. now rewrite H.
Qed.

(** ** The vacuous filter *)

(** C1: a filter of any class, the base class included, whose reference value
    is [None] returns [True] on every close approach, and the call makes no
    invocation of [get]. *)
Theorem call_None_is_True (c : filter_class) (o : comparator)
        (approach : CloseApproach) :
  call (mkFilter c o VNone) approach = Ok true /\
  get_calls (mkFilter c o VNone) approach = 0%nat.
Proof.
  split; reflexivity.
Qed.

(** ** [create_filters] *)

(** A filter of a concrete class is the specification's predicate on the
    field its class reads. *)
Lemma call_predicate (c : filter_class) (o : comparator) (v x : pyval)
      (approach : CloseApproach) :
  get c approach = Ok x ->
  call (mkFilter c o v) approach = spec_predicate o x v.
Proof.
  intros Hget. unfold call, call_traced, spec_predicate. cbn [value cls op].
  destruct v; cbn [is_None fst]; try reflexivity; now rewrite Hget.
Qed.

(** Appending to the newest list object leaves the others as they are. *)
Lemma list_append_newest (h : heap) (l : list AttributeFilter)
      (x : AttributeFilter) :
  list_append (h ++ [l]) (length h) x = h ++ [append l x].
Proof.
  induction h as [| l0 h IH]; cbn [app length list_append]; [reflexivity |].
  now rewrite IH.
Qed.

(** C2: for all ten criteria, [create_filters] returns exactly ten filters,
    in this order and with these classes, comparators and reference values:
    date (==), start date (>=), end date (<=), minimum (>=) and maximum (<=)
    distance, minimum and maximum velocity, minimum and maximum diameter,
    hazardous (==).  On every close approach the ten verdicts are those of
    the specification's predicates on the date, the distance, the velocity,
    the diameter and the hazardous flag, so a criterion that is [None] is
    present as a predicate that is always true.  Run on a heap of list
    objects, the construction creates one new list holding these filters and
    leaves every existing object as it was. *)
Theorem create_filters_ten_in_order
        (d sd ed dist_min dist_max vel_min vel_max diam_min diam_max hz : pyval) :
  let filters :=
    create_filters d sd ed dist_min dist_max vel_min vel_max
                   diam_min diam_max hz in
  filters =
    [ mkFilter DateFilterClass op_eq d;
      mkFilter DateFilterClass op_ge sd;
      mkFilter DateFilterClass op_le ed;
      mkFilter DistanceFilterClass op_ge dist_min;
      mkFilter DistanceFilterClass op_le dist_max;
      mkFilter VelocityFilterClass op_ge vel_min;
      mkFilter VelocityFilterClass op_le vel_max;
      mkFilter DiameterFilterClass op_ge diam_min;
      mkFilter DiameterFilterClass op_le diam_max;
      mkFilter HazardousFilterClass op_eq hz ] /\
  length filters = 10%nat /\
  (forall approach,
      map (fun f => call f approach) filters =
        [ spec_predicate op_eq (VDate (datetime_date (time approach))) d;
          spec_predicate op_ge (VDate (datetime_date (time approach))) sd;
          spec_predicate op_le (VDate (datetime_date (time approach))) ed;
          spec_predicate op_ge (VFloat (distance approach)) dist_min;
          spec_predicate op_le (VFloat (distance approach)) dist_max;
          spec_predicate op_ge (VFloat (velocity approach)) vel_min;
          spec_predicate op_le (VFloat (velocity approach)) vel_max;
          spec_predicate op_ge (VFloat (diameter (neo approach))) diam_min;
          spec_predicate op_le (VFloat (diameter (neo approach))) diam_max;
          spec_predicate op_eq (VBool (hazardous (neo approach))) hz ]) /\
  (forall h : heap,
      create_filters_in h d sd ed dist_min dist_max vel_min vel_max
                        diam_min diam_max hz
        = (length h, h ++ [filters])).
Proof.
  cbv zeta. split; [reflexivity | split; [reflexivity | split]].
  - intros approach.
    unfold create_filters, append, DateFilter, DistanceFilter, VelocityFilter,
      DiameterFilter, HazardousFilter.
    cbn [app map].
    repeat (erewrite call_predicate by reflexivity).
    reflexivity.
  - intros h. unfold create_filters_in, new_list.
    rewrite !list_append_newest. reflexivity.
Qed.

(** ** Unknown diameter *)

(** C3: on a close approach whose object has an unknown diameter, the
    minimum-diameter and the maximum-diameter filter with any numeric bound
    both return [False]; neither raises. *)
Theorem unknown_diameter_fails_bounds (approach : CloseApproach) (bound : pyval) :
  diameter_unknown approach = true ->
  is_numeric bound = true ->
  call (DiameterFilter op_ge bound) approach = Ok false /\
  call (DiameterFilter op_le bound) approach = Ok false.
Proof.
  unfold diameter_unknown. intros Hnan Hnum.
  assert (Hv : is_None bound = false) by (destruct bound; easy).
  unfold DiameterFilter. rewrite !call_active by exact Hv.
  simpl. destruct (diameter (neo approach)); try discriminate.
  unfold py_ge, py_le. simpl as_num at 1 3.
  unfold is_numeric in Hnum.
  destruct (as_num bound) as [y |]; [| discriminate].
  rewrite num_compare_nan_l. split; reflexivity.
Qed.

Lemma unknown_diameter_fails_bounds_witness :
  call (DiameterFilter op_ge (VInt 0)) unknown_approach = Ok false /\
  call (DiameterFilter op_le (VInt 0)) unknown_approach = Ok false.
Proof.
  apply (unknown_diameter_fails_bounds unknown_approach (VInt 0));
    reflexivity.
Defined.

(** ** The unspecialized filter *)

(** C6: calling a filter of the base class that holds a reference value runs
    the base [get], which raises [UnsupportedCriterionError]; the error comes
    out of the call, and out of a predicate set that reaches such a filter. *)
Theorem base_filter_raises_unsupported (o : comparator) (v : pyval)
        (approach : CloseApproach) :
  is_None v = false ->
  get AttributeFilterClass approach = Err UnsupportedCriterionError /\
  call (BaseFilter o v) approach = Err UnsupportedCriterionError /\
  matches [BaseFilter o v] approach = Err UnsupportedCriterionError.
Proof.
  intros Hv. unfold BaseFilter, matches.
  rewrite call_active by exact Hv. repeat split.
Qed.

Lemma base_filter_raises_unsupported_witness :
  get AttributeFilterClass known_approach = Err UnsupportedCriterionError /\
  call (BaseFilter op_le (VInt 10)) known_approach
    = Err UnsupportedCriterionError /\
  matches [BaseFilter op_le (VInt 10)] known_approach
    = Err UnsupportedCriterionError.
Proof.
  apply (base_filter_raises_unsupported op_le (VInt 10) known_approach).
  reflexivity.
Defined.

(** ** The hazardous criterion *)

(** A filter other than the hazardous one does not read the hazardous flag. *)
Lemma call_ignores_hazardous (f : AttributeFilter) (t : datetime)
      (dist vel diam : spec_float) (h1 h2 : bool) :
  cls f <> HazardousFilterClass \/ value f = VNone ->
  call f (mkApproach t dist vel (mkNEO diam h1)) =
  call f (mkApproach t dist vel (mkNEO diam h2)).
Proof.
  destruct f as [c o v]. simpl. intros [Hc | Hv].
  - unfold call, call_traced. simpl.
    destruct (is_None v); [reflexivity |].
    destruct c; try reflexivity. now elim Hc.
  - subst v. reflexivity.
Qed.

Lemma matches_ignores_hazardous (filters : list AttributeFilter) (t : datetime)
      (dist vel diam : spec_float) (h1 h2 : bool) :
  Forall (fun f => cls f <> HazardousFilterClass \/ value f = VNone) filters ->
  matches filters (mkApproach t dist vel (mkNEO diam h1)) =
  matches filters (mkApproach t dist vel (mkNEO diam h2)).
Proof.
  induction 1 as [| f rest Hf _ IH]; simpl; [reflexivity |].
  rewrite (call_ignores_hazardous f t dist vel diam h1 h2 Hf).
  now rewrite IH.
Qed.

(** C7: the hazardous criterion has three states.  Left at [None], the
    hazardous filter accepts every approach and the predicate set gives the
    same verdict whatever the hazardous flag of the object; given as [False]
    or [True], it is an equality test that accepts exactly the approaches
    whose object carries that flag. *)
Theorem hazardous_tri_state
        (d sd ed dist_min dist_max vel_min vel_max diam_min diam_max : pyval) :
  (forall approach, call (HazardousFilter op_eq VNone) approach = Ok true) /\
  (forall t dist vel diam h1 h2,
      let filters :=
        create_filters d sd ed dist_min dist_max vel_min vel_max
                       diam_min diam_max VNone in
      matches filters (mkApproach t dist vel (mkNEO diam h1)) =
      matches filters (mkApproach t dist vel (mkNEO diam h2))) /\
  (forall b approach,
      call (HazardousFilter op_eq (VBool b)) approach
        = Ok (Bool.eqb (hazardous (neo approach)) b)) /\
  (forall b approach,
      matches (create_filters VNone VNone VNone VNone VNone VNone VNone
                              VNone VNone (VBool b)) approach
        = Ok (Bool.eqb (hazardous (neo approach)) b)).
Proof.
  split; [| split; [| split]].
  - reflexivity.
  - intros. apply matches_ignores_hazardous.
    subst filters. unfold create_filters, append. simpl app.
    repeat (apply Forall_cons;
            [first [left; discriminate | right; reflexivity] |]).
    apply Forall_nil.
  - intros b approach. unfold HazardousFilter.
    rewrite call_active by reflexivity. simpl.
    now destruct (hazardous (neo approach)), b.
  - intros b approach. simpl.
    now destruct (hazardous (neo approach)), b.
Qed.

(** ** Reflexivity at the boundary *)

Lemma apply_op_refl (o : comparator) (v : pyval) :
  is_None v = false -> is_nan_value v = false -> apply_op o v v = Ok true.
Proof.
  intros Hnone Hnan.
  destruct v as [| b | z | f | d]; try discriminate.
  - destruct o, b; reflexivity.
  - destruct o; simpl; unfold py_eq, py_ge, py_le; simpl;
      now rewrite Z.compare_refl.
  - simpl in Hnan.
    destruct o; simpl; unfold py_eq, py_ge, py_le; simpl;
      now rewrite (SFcompare_refl f Hnan).
  - destruct o; simpl; unfold py_eq, py_ge, py_le; simpl;
      now rewrite date_compare_refl.
Qed.

(** C8, as the code has it: for each of the five fields and every close
    approach whose value for that field is not a NaN, the ==, >= and <=
    filters with that value as reference all return [True]. *)
Theorem reflexive_unless_nan (c : filter_class) (approach : CloseApproach)
        (v : pyval) :
  get c approach = Ok v ->
  is_nan_value v = false ->
  call (mkFilter c op_eq v) approach = Ok true /\
  call (mkFilter c op_ge v) approach = Ok true /\
  call (mkFilter c op_le v) approach = Ok true.
Proof.
  intros Hget Hnan.
  pose proof (get_not_None c approach v Hget) as Hnone.
  rewrite !call_active by exact Hnone.
  rewrite Hget. cbn [bind].
  repeat split; now apply apply_op_refl.
Qed.

Lemma reflexive_unless_nan_witness :
  call (mkFilter DiameterFilterClass op_eq (VFloat half)) known_approach
    = Ok true /\
  call (mkFilter DiameterFilterClass op_ge (VFloat half)) known_approach
    = Ok true /\
  call (mkFilter DiameterFilterClass op_le (VFloat half)) known_approach
    = Ok true.
Proof.
  apply (reflexive_unless_nan DiameterFilterClass known_approach (VFloat half));
    reflexivity.
Defined.

(** C8 as stated fails on the diameter of an object whose diameter is
    unknown: the NaN is its own field value, and no comparison accepts it. *)
Lemma reflexive_at_boundary_fails_for_nan :
  ~ reflexive_at_boundary DiameterFilterClass unknown_approach.
Proof.
  intros H.
  destruct (H (VFloat S754_nan) eq_refl) as [Heq _].
  discriminate Heq.
Qed.

(** ** Inconsistent date window *)

(** The equality comparator never raises. *)
Lemma py_eq_total (a b : pyval) : exists r, py_eq a b = Ok r.
Proof.
  unfold py_eq.
  destruct (as_num a), (as_num b); try (eexists; reflexivity);
    destruct a, b; eexists; reflexivity.
Qed.

(** C9: [create_filters] accepts a start date that lies after the end date
    and builds the usual ten filters; no close approach passes both the
    start-date and the end-date filter, and the predicate set rejects every
    close approach, whatever the other criteria. *)
Theorem start_after_end_matches_nothing
        (d dist_min dist_max vel_min vel_max diam_min diam_max hz : pyval)
        (s e : date) (approach : CloseApproach) :
  date_compare e s = Lt ->
  let filters :=
    create_filters d (VDate s) (VDate e) dist_min dist_max vel_min vel_max
                   diam_min diam_max hz in
  nth_error filters 1 = Some (DateFilter op_ge (VDate s)) /\
  nth_error filters 2 = Some (DateFilter op_le (VDate e)) /\
  ~ (call (DateFilter op_ge (VDate s)) approach = Ok true /\
     call (DateFilter op_le (VDate e)) approach = Ok true) /\
  matches filters approach = Ok false.
Proof.
  intros Hes filters.
  assert (Hwin : call (DateFilter op_ge (VDate s)) approach = Ok true ->
                 call (DateFilter op_le (VDate e)) approach = Ok false).
  { unfold DateFilter. rewrite !call_active by reflexivity. simpl.
    unfold py_ge, py_le. simpl. intros H. inversion H as [Hge].
    rewrite Hge. f_equal.
    apply (date_window_empty _ s e Hes). exact Hge. }
  split; [reflexivity | split; [reflexivity | split]].
  - intros [Hge Hle]. rewrite (Hwin Hge) in Hle. discriminate.
  - subst filters. unfold create_filters, append. simpl app.
    cbn [matches].
    assert (Hd : exists r, call (DateFilter op_eq d) approach = Ok r).
    { unfold call, call_traced. simpl.
      destruct (is_None d); simpl; [now exists true |].
      apply py_eq_total. }
    destruct Hd as [r Hd]. rewrite Hd. cbn [bind].
    destruct r; [| reflexivity].
    assert (Hs : exists r, call (DateFilter op_ge (VDate s)) approach = Ok r).
    { unfold DateFilter. rewrite call_active by reflexivity. simpl.
      unfold py_ge. simpl. eexists; reflexivity. }
    destruct Hs as [r Hs]. rewrite Hs. cbn [bind].
    destruct r; [| reflexivity].
    now rewrite (Hwin Hs).
Qed.

Lemma start_after_end_matches_nothing_witness :
  date_compare jan_1 jan_2 = Lt /\
  ~ (call (DateFilter op_ge (VDate jan_2)) known_approach = Ok true /\
     call (DateFilter op_le (VDate jan_1)) known_approach = Ok true) /\
  matches (create_filters VNone (VDate jan_2) (VDate jan_1) VNone VNone VNone
                          VNone VNone VNone VNone) known_approach = Ok false.
Proof.
  split; [reflexivity |].
  apply (start_after_end_matches_nothing VNone VNone VNone VNone VNone VNone
           VNone VNone jan_2 jan_1 known_approach).
  reflexivity.
Defined.

(** * Properties of the limiter *)

(** The two branches of [islice_next]. *)
Section IsliceSteps.

Context {A S : Type}.
Variable next : S -> outcome A * S.

Lemma islice_next_stop (i : islice S) :
  stop_reached i = true -> islice_next next i = (StopIteration, i).
Proof.
  intros H. unfold islice_next. now rewrite H.
Qed.

Lemma islice_next_draw (i : islice S) :
  stop_reached i = false ->
  islice_next next i =
    match next (it i) with
    | (Item x, s') => (Item x, mkIslice s' (cnt i + 1) (stop i))
    | (o, s') => (o, mkIslice s' (cnt i) (stop i))
    end.
Proof.
  intros H. unfold islice_next. now rewrite H.
Qed.

End IsliceSteps.

Section LimitProperties.

Context {A S : Type}.
Variable next : S -> outcome A * S.

(** Without a stop index an [islice] passes every outcome of the source
    on, and leaves the source where a direct consumer would. *)
Lemma drain_islice_unbounded (fuel : nat) (s : S) (c : Z) :
  observed (drain (islice_next next) fuel (mkIslice s c None))
    = observed (drain next fuel s) /\
  it (snd (drain (islice_next next) fuel (mkIslice s c None)))
    = snd (drain next fuel s).
Proof.
  revert s c. induction fuel as [| fuel IH]; intros s c; cbn [drain].
  - split; reflexivity.
  - rewrite islice_next_draw by reflexivity. cbn [it cnt stop].
    destruct (next s) as [[x | | e] s']; try (split; reflexivity).
    specialize (IH s' (c + 1)). unfold observed in *.
    destruct (drain (islice_next next) fuel (mkIslice s' (c + 1) None))
      as [[xs en] sf].
    destruct (drain next fuel s') as [[xs' en'] sf'].
    cbn [fst snd] in *. destruct IH as [IH1 IH2].
    inversion IH1; subst. split; reflexivity.
Qed.

(** When the first [n] draws of the source give the items [l], an [islice]
    that has [n] items left before its stop index passes exactly [l] on and
    ends there, with the source left in the state those [n] draws led to. *)
Lemma drain_islice_capped (n : nat) (s s' : S) (l : list A) (c k : Z)
      (fuel : nat) :
  draw_n next n s = Some (l, s') ->
  c + Z.of_nat n = k ->
  (n < fuel)%nat ->
  drain (islice_next next) fuel (mkIslice s c (Some k))
    = (l, Exhausted, mkIslice s' k (Some k)).
Proof.
  revert s l c fuel. induction n as [| n IH]; intros s l c fuel Hd Hk Hf;
    (destruct fuel as [| fuel]; [lia |]); cbn [drain]; cbn [draw_n] in Hd.
  - inversion Hd; subst.
    replace (c + Z.of_nat 0) with c by lia.
    rewrite islice_next_stop; [reflexivity |].
    unfold stop_reached. cbn [stop cnt]. apply Z.leb_refl.
  - destruct (next s) as [[x | | e] s1] eqn:Hn; try discriminate.
    destruct (draw_n next n s1) as [[xs sf] |] eqn:Hd1; try discriminate.
    inversion Hd; subst.
    rewrite islice_next_draw.
    + cbn [it cnt stop]. rewrite Hn.
      rewrite (IH s1 xs (c + 1) fuel Hd1) by lia.
      reflexivity.
    + unfold stop_reached. cbn [stop cnt]. apply Z.leb_gt. lia.
Qed.

(** An [islice] with stop index [k] that has passed [c] items on makes at
    most [k - c] further calls to the source. *)
Lemma drain_islice_draws (fuel : nat) (s : S) (d : nat) (c k : Z) :
  0 <= c <= k ->
  (snd (it (snd (drain (islice_next (counted next)) fuel
                       (mkIslice (s, d) c (Some k)))))
   <= d + Z.to_nat (k - c))%nat.
Proof.
  revert s d c. induction fuel as [| fuel IH]; intros s d c Hc; cbn [drain].
  - cbn [snd it]. lia.
  - destruct (Z.leb_spec k c) as [Hkc | Hkc].
    + rewrite islice_next_stop.
      * cbn [snd it]. lia.
      * unfold stop_reached. cbn [stop cnt]. now apply Z.leb_le.
    + rewrite islice_next_draw.
      * cbn [it cnt stop]. unfold counted at 1. cbn [fst snd].
        destruct (next s) as [[x | | e] s1]; cbn [snd it]; try lia.
        specialize (IH s1 (Datatypes.S d) (c + 1)).
        destruct (drain (islice_next (counted next)) fuel
                        (mkIslice (s1, Datatypes.S d) (c + 1) (Some k)))
          as [[xs en] sf].
        cbn [snd] in *.
        assert (0 <= c + 1 <= k) as Hc' by lia.
        specialize (IH Hc'). lia.
      * unfold stop_reached. cbn [stop cnt]. now apply Z.leb_gt.
Qed.

End LimitProperties.

(** Draining a capped [islice] over a list gives the leading elements. *)
Lemma drain_islice_list {A : Type} (l : list A) (c k : Z) (fuel : nat) :
  0 <= c <= k ->
  (length l < fuel)%nat ->
  observed (drain (islice_next list_next) fuel (mkIslice l c (Some k)))
    = (firstn (Z.to_nat (k - c)) l, Exhausted).
Proof.
  revert c fuel. induction l as [| x t IH]; intros c fuel Hc Hf;
    (destruct fuel as [| fuel]; [simpl in Hf; lia |]); cbn [drain].
  - rewrite firstn_nil.
    destruct (stop_reached (mkIslice (@nil A) c (Some k))) eqn:Hs.
    + now rewrite islice_next_stop.
    + now rewrite islice_next_draw.
  - destruct (Z.leb_spec k c) as [Hkc | Hkc].
    + rewrite islice_next_stop.
      * replace (k - c) with 0 by lia. reflexivity.
      * unfold stop_reached. cbn [stop cnt]. now apply Z.leb_le.
    + rewrite islice_next_draw.
      * cbn [it cnt stop list_next].
        simpl in Hf. specialize (IH (c + 1) fuel).
        unfold observed in *.
        destruct (drain (islice_next list_next) fuel
                        (mkIslice t (c + 1) (Some k))) as [[xs en] sf].
        cbn [fst] in *.
        assert (IH' : (xs, en) = (firstn (Z.to_nat (k - (c + 1))) t, Exhausted))
          by (apply IH; lia).
        inversion IH'; subst.
        replace (Z.to_nat (k - c)) with (Datatypes.S (Z.to_nat (k - (c + 1))))
          by lia.
        reflexivity.
      * unfold stop_reached. cbn [stop cnt]. now apply Z.leb_gt.
Qed.

(** ** No cap *)

(** C4: with a cap that is [None] or 0, [limit] returns an iterator that
    yields exactly what the source yields, item for item and with the same
    end, and draws from the source exactly as a direct consumer would. *)
Theorem limit_without_cap_is_identity {A S : Type}
        (next : S -> outcome A * S) (s : S) (n : option Z) :
  n = None \/ n = Some 0 ->
  exists i,
    limit s n = Ok i /\
    forall fuel,
      observed (drain (islice_next next) fuel i) = observed (drain next fuel s) /\
      it (snd (drain (islice_next next) fuel i)) = snd (drain next fuel s).
Proof.
  intros Hn. exists (mkIslice s 0 None). split.
  - destruct Hn; subst n; reflexivity.
  - intros fuel. apply drain_islice_unbounded.
Qed.

Lemma limit_without_cap_is_identity_witness :
  exists i,
    limit 7 (Some 0) = Ok i /\
    forall fuel,
      observed (drain (islice_next count_next) fuel i)
        = observed (drain count_next fuel 7) /\
      it (snd (drain (islice_next count_next) fuel i))
        = snd (drain count_next fuel 7).
Proof.
  apply (limit_without_cap_is_identity count_next 7 (Some 0)).
  right. reflexivity.
Defined.

(** ** A positive cap *)

(** C5, as the code has it: with a cap [0 < k <= sys.maxsize], [limit] over
    a sequence yields its first [min k (length)] elements in order.  Over any
    iterator whose first [k] draws produce items, it yields exactly those
    items and then ends, leaving the source in the state reached after those
    [k] draws, so nothing the source would do next (raising included) is
    seen; and over any iterator at all it calls the source at most [k]
    times. *)
Theorem limit_with_cap {A S : Type} (next : S -> outcome A * S) (k : Z) :
  0 < k ->
  k <= sys_maxsize ->
  (forall l : list A,
      exists i,
        limit l (Some k) = Ok i /\
        forall fuel,
          (length l < fuel)%nat ->
          observed (drain (islice_next list_next) fuel i)
            = (firstn (Nat.min (Z.to_nat k) (length l)) l, Exhausted)) /\
  (forall (s s' : S) (l : list A),
      draw_n next (Z.to_nat k) s = Some (l, s') ->
      exists i,
        limit s (Some k) = Ok i /\
        forall fuel,
          (Z.to_nat k < fuel)%nat ->
          drain (islice_next next) fuel i
            = (l, Exhausted, mkIslice s' k (Some k))) /\
  (forall (s : S) (fuel : nat),
      exists i,
        limit (s, 0%nat) (Some k) = Ok i /\
        (snd (it (snd (drain (islice_next (counted next)) fuel i)))
         <= Z.to_nat k)%nat).
Proof.
  intros Hk Hmax.
  assert (Hlim : forall (T : Type) (s : T),
             limit s (Some k) = Ok (mkIslice s 0 (Some k))).
  { intros T s. unfold limit, eq_zero, islice_new.
    destruct (Z.eqb_spec k 0); [lia |].
    destruct (Z.ltb_spec k 0); [lia |].
    destruct (Z.ltb_spec sys_maxsize k); [lia |]. reflexivity. }
  split; [| split].
  - intros l. eexists. split; [apply Hlim |].
    intros fuel Hf.
    rewrite drain_islice_list by lia.
    rewrite Z.sub_0_r. f_equal.
    destruct (Nat.le_gt_cases (Z.to_nat k) (length l)) as [Hle | Hgt].
    + now rewrite Nat.min_l.
    + rewrite Nat.min_r by lia.
      rewrite firstn_all2 by lia. now rewrite firstn_all.
  - intros s s' l Hd. eexists. split; [apply Hlim |].
    intros fuel Hf.
    apply (drain_islice_capped next (Z.to_nat k)); [exact Hd | lia | exact Hf].
  - intros s fuel. eexists. split; [apply Hlim |].
    pose proof (drain_islice_draws next fuel s 0%nat 0 k) as H.
    rewrite Z.sub_0_r in H. apply H. lia.
Qed.

Lemma limit_with_cap_witness :
  0 < 3 /\
  3 <= sys_maxsize /\
  draw_n (failing_next 3) (Z.to_nat 3) 0 = Some ([0; 1; 2], 3) /\
  fst (failing_next 3 3) = Raise (SourceError 3) /\
  exists i,
    limit 0 (Some 3) = Ok i /\
    forall fuel,
      (Z.to_nat 3 < fuel)%nat ->
      drain (islice_next (failing_next 3)) fuel i
        = ([0; 1; 2], Exhausted, mkIslice 3 3 (Some 3)).
Proof.
  split; [reflexivity |].
  split; [unfold sys_maxsize; lia |].
  split; [reflexivity |].
  split; [reflexivity |].
  assert (Hk : 0 < 3) by reflexivity.
  assert (Hmax : 3 <= sys_maxsize) by (unfold sys_maxsize; lia).
  exact (proj1 (proj2 (limit_with_cap (failing_next 3) 3 Hk Hmax))
               0 3 [0; 1; 2] eq_refl).
Defined.

(** C5 as stated fails for a cap beyond [sys.maxsize]: the cap is positive,
    yet the call raises [ValueError] and yields no leading items at all. *)
Lemma limit_with_cap_fails_beyond_maxsize :
  0 < sys_maxsize + 1 /\
  limit [1; 2; 3] (Some (sys_maxsize + 1)) = Err ValueError /\
  ~ (exists i,
        limit [1; 2; 3] (Some (sys_maxsize + 1)) = Ok i /\
        forall fuel,
          (length [1; 2; 3] < fuel)%nat ->
          observed (drain (islice_next list_next) fuel i)
            = (firstn (Nat.min (Z.to_nat (sys_maxsize + 1))
                               (length [1; 2; 3])) [1; 2; 3],
               Exhausted)).
Proof.
  split; [reflexivity |]. split; [reflexivity |].
  intros [i [H _]]. discriminate H.
Qed.

(** ** A negative cap *)

(** C10: with a negative cap, [limit] raises [ValueError] from the call
    itself; it has produced no iterator, and, having no access to the
    source's [next], has drawn nothing. *)
Theorem limit_negative_raises {S : Type} (iterator : S) (n : Z) :
  n < 0 -> limit iterator (Some n) = Err ValueError.
Proof.
  intros Hn. unfold limit, eq_zero, islice_new.
  destruct (Z.eqb_spec n 0); [lia |].
  destruct (Z.ltb_spec n 0); [reflexivity | lia].
Qed.

Lemma limit_negative_raises_witness :
  -1 < 0 /\ limit [3; 1; 2] (Some (-1)) = Err ValueError.
Proof.
  split; [reflexivity |].
  apply (limit_negative_raises [3; 1; 2] (-1)). reflexivity.
Defined.

(** * Further properties of the limiter *)

Section LimitMore.

Context {A S : Type}.
Variable next : S -> outcome A * S.

(** A capped [islice] over a source that ends, by exhaustion or by an error,
    after yielding [l]: the leading items, and the source's own ending
    unless the cap came first. *)
Lemma drain_islice_of_ended (fuel : nat) (s sf : S) (l : list A) (en : ending)
      (c k : Z) :
  drain next fuel s = (l, en, sf) ->
  en <> Pending ->
  0 <= c <= k ->
  observed (drain (islice_next next) fuel (mkIslice s c (Some k)))
    = (firstn (Z.to_nat (k - c)) l,
       if k - c <=? Z.of_nat (length l) then Exhausted else en).
Proof.
  revert s l c. induction fuel as [| fuel IH]; intros s l c Hd Hen Hc;
    cbn [drain] in *.
  - inversion Hd; subst. now elim Hen.
  - destruct (Z.leb_spec k c) as [Hkc | Hkc].
    + rewrite islice_next_stop
        by (unfold stop_reached; cbn [stop cnt]; now apply Z.leb_le).
      replace (k - c) with 0 by lia. cbn [Z.to_nat firstn].
      destruct (Z.leb_spec 0 (Z.of_nat (length l))); [reflexivity | lia].
    + rewrite islice_next_draw
        by (unfold stop_reached; cbn [stop cnt]; now apply Z.leb_gt).
      cbn [it cnt stop].
      destruct (next s) as [[x | | e] s1].
      * destruct (drain next fuel s1) as [[xs en1] sf1] eqn:Hd1.
        inversion Hd; subst.
        specialize (IH s1 xs (c + 1) Hd1 Hen).
        unfold observed in *.
        destruct (drain (islice_next next) fuel
                        (mkIslice s1 (c + 1) (Some k))) as [[ys en2] sf2].
        cbn [fst] in *.
        assert (IH' : (ys, en2) =
                      (firstn (Z.to_nat (k - (c + 1))) xs,
                       if k - (c + 1) <=? Z.of_nat (length xs)
                       then Exhausted else en))
          by (apply IH; lia).
        inversion IH'; subst.
        replace (Z.to_nat (k - c)) with (Datatypes.S (Z.to_nat (k - (c + 1))))
          by lia.
        cbn [firstn length]. f_equal.
        destruct (Z.leb_spec (k - (c + 1)) (Z.of_nat (length xs)));
          destruct (Z.leb_spec (k - c) (Z.of_nat (Datatypes.S (length xs))));
          try reflexivity; lia.
      * inversion Hd; subst. cbn [fst firstn length observed].
        rewrite firstn_nil.
        destruct (Z.leb_spec (k - c) (Z.of_nat 0)); [lia | reflexivity].
      * inversion Hd; subst. cbn [fst firstn length observed].
        rewrite firstn_nil.
        destruct (Z.leb_spec (k - c) (Z.of_nat 0)); [lia | reflexivity].
Qed.

(** However long the consumer runs, a capped [islice] hands out at most the
    items left before its stop index. *)
Lemma drain_islice_length (fuel : nat) (s : S) (c k : Z) :
  0 <= c <= k ->
  Z.of_nat (length (fst (observed (drain (islice_next next) fuel
                                         (mkIslice s c (Some k)))))) <= k - c.
Proof.
  revert s c. induction fuel as [| fuel IH]; intros s c Hc; cbn [drain].
  - cbn. lia.
  - destruct (Z.leb_spec k c) as [Hkc | Hkc].
    + rewrite islice_next_stop
        by (unfold stop_reached; cbn [stop cnt]; now apply Z.leb_le).
      cbn. lia.
    + rewrite islice_next_draw
        by (unfold stop_reached; cbn [stop cnt]; now apply Z.leb_gt).
      cbn [it cnt stop].
      destruct (next s) as [[x | | e] s1]; try (cbn; lia).
      specialize (IH s1 (c + 1)). unfold observed in *.
      destruct (drain (islice_next next) fuel (mkIslice s1 (c + 1) (Some k)))
        as [[ys en2] sf2].
      cbn [fst length] in *.
      assert (Z.of_nat (length ys) <= k - (c + 1)) by (apply IH; lia).
      lia.
Qed.

(** Two caps in a row act as the smaller one, step for step. *)
Lemma drain_islice_islice (fuel : nat) (s : S) (c j k : Z) :
  observed (drain (islice_next (islice_next next)) fuel
                  (mkIslice (mkIslice s c (Some j)) c (Some k)))
  = observed (drain (islice_next next) fuel
                    (mkIslice s c (Some (Z.min j k)))).
Proof.
  revert s c. induction fuel as [| fuel IH]; intros s c; cbn [drain].
  - reflexivity.
  - destruct (Z.leb_spec k c) as [Hkc | Hkc].
    + rewrite (islice_next_stop (islice_next next))
        by (unfold stop_reached; cbn [stop cnt]; now apply Z.leb_le).
      rewrite (islice_next_stop next)
        by (unfold stop_reached; cbn [stop cnt]; apply Z.leb_le; lia).
      reflexivity.
    + rewrite (islice_next_draw (islice_next next))
        by (unfold stop_reached; cbn [stop cnt]; now apply Z.leb_gt).
      cbn [it cnt stop].
      destruct (Z.leb_spec j c) as [Hjc | Hjc].
      * rewrite !(islice_next_stop next)
          by (unfold stop_reached; cbn [stop cnt]; apply Z.leb_le; lia).
        reflexivity.
      * rewrite !(islice_next_draw next)
          by (unfold stop_reached; cbn [stop cnt]; apply Z.leb_gt; lia).
        cbn [it cnt stop].
        destruct (next s) as [[x | | e] s1]; try reflexivity.
        specialize (IH s1 (c + 1)). unfold observed in *.
        destruct (drain (islice_next (islice_next next)) fuel
                        (mkIslice (mkIslice s1 (c + 1) (Some j)) (c + 1)
                                  (Some k))) as [[ys en2] sf2].
        destruct (drain (islice_next next) fuel
                        (mkIslice s1 (c + 1) (Some (Z.min j k))))
          as [[zs en3] sf3].
        cbn [fst] in *. now inversion IH.
Qed.

End LimitMore.

Lemma limit_positive {S : Type} (s : S) (k : Z) :
  0 < k -> k <= sys_maxsize ->
  limit s (Some k) = Ok (mkIslice s 0 (Some k)).
Proof.
  intros Hk Hmax. unfold limit, eq_zero, islice_new.
  destruct (Z.eqb_spec k 0); [lia |].
  destruct (Z.ltb_spec k 0); [lia |].
  destruct (Z.ltb_spec sys_maxsize k); [lia |]. reflexivity.
Qed.

(** When the source ends after yielding [l], by exhaustion or by raising,
    [limit] with a cap [0 < k <= sys.maxsize] yields the first [k] items of
    [l]; it ends normally if the cap is reached, and otherwise ends as the
    source does, so an error raised before the cap is reached comes
    through. *)
Theorem limit_over_ended_source {A S : Type} (next : S -> outcome A * S)
        (s sf : S) (l : list A) (en : ending) (fuel : nat) (k : Z) :
  0 < k ->
  k <= sys_maxsize ->
  drain next fuel s = (l, en, sf) ->
  en <> Pending ->
  exists i,
    limit s (Some k) = Ok i /\
    observed (drain (islice_next next) fuel i)
      = (firstn (Z.to_nat k) l,
         if k <=? Z.of_nat (length l) then Exhausted else en).
Proof.
  intros Hk Hmax Hd Hen. eexists. split; [now apply limit_positive |].
  rewrite (drain_islice_of_ended next fuel s sf l en 0 k Hd Hen) by lia.
  now rewrite Z.sub_0_r.
Qed.

Lemma limit_over_ended_source_witness :
  exists i,
    limit 0 (Some 5) = Ok i /\
    observed (drain (islice_next (failing_next 2)) 3 i)
      = (firstn (Z.to_nat 5) [0; 1],
         if 5 <=? Z.of_nat (length [0; 1]) then Exhausted
         else Failed (SourceError 2)).
Proof.
  apply (limit_over_ended_source (failing_next 2) 0 3 [0; 1]
           (Failed (SourceError 2)) 3 5);
    [reflexivity | unfold sys_maxsize; lia | reflexivity | discriminate].
Defined.

(** With a cap [0 < k <= sys.maxsize], a consumer that iterates the result
    of [limit] up to its first end ([StopIteration] or an exception) receives
    at most [k] items, whatever the source does and however many calls the
    consumer is allowed. *)
Theorem limit_yields_at_most_cap {A S : Type} (next : S -> outcome A * S)
        (s : S) (k : Z) (fuel : nat) :
  0 < k ->
  k <= sys_maxsize ->
  exists i,
    limit s (Some k) = Ok i /\
    Z.of_nat (length (fst (observed (drain (islice_next next) fuel i)))) <= k.
Proof.
  intros Hk Hmax. eexists. split; [now apply limit_positive |].
  pose proof (drain_islice_length next fuel s 0 k) as H.
  rewrite Z.sub_0_r in H. apply H. lia.
Qed.

Lemma limit_yields_at_most_cap_witness :
  exists i,
    limit 7 (Some 2) = Ok i /\
    Z.of_nat (length (fst (observed (drain (islice_next count_next) 10 i))))
      <= 2.
Proof.
  apply (limit_yields_at_most_cap count_next 7 2 10);
    [reflexivity | unfold sys_maxsize; lia].
Defined.

(** Limiting an already limited iterator: with caps [j] and then [k], both
    positive and at most [sys.maxsize], a consumer that iterates up to the
    first end receives the same items and the same end as from a single
    [limit] with the smaller of the two caps, for every number of calls it
    is allowed. *)
Theorem limit_of_limit {A S : Type} (next : S -> outcome A * S)
        (s : S) (j k : Z) :
  0 < j -> j <= sys_maxsize ->
  0 < k -> k <= sys_maxsize ->
  exists inner outer single,
    limit s (Some j) = Ok inner /\
    limit inner (Some k) = Ok outer /\
    limit s (Some (Z.min j k)) = Ok single /\
    forall fuel,
      observed (drain (islice_next (islice_next next)) fuel outer)
        = observed (drain (islice_next next) fuel single).
Proof.
  intros Hj Hjmax Hk Hkmax.
  exists (mkIslice s 0 (Some j)),
         (mkIslice (mkIslice s 0 (Some j)) 0 (Some k)),
         (mkIslice s 0 (Some (Z.min j k))).
  repeat split; try (apply limit_positive; lia).
  intros fuel. apply drain_islice_islice.
Qed.

Lemma limit_of_limit_witness :
  exists inner outer single,
    limit 7 (Some 4) = Ok inner /\
    limit inner (Some 2) = Ok outer /\
    limit 7 (Some (Z.min 4 2)) = Ok single /\
    forall fuel,
      observed (drain (islice_next (islice_next count_next)) fuel outer)
        = observed (drain (islice_next count_next) fuel single).
Proof.
  apply (limit_of_limit count_next 7 4 2);
    try reflexivity; unfold sys_maxsize; lia.
Defined.

(** * Further properties of the filters *)

Lemma is_Eq_Ge_Le (c : option comparison) : is_Eq c = is_Ge c && is_Le c.
Proof.
  now destruct c as [[| |] |].
Qed.

Lemma lex3_Lt (a b : Z * Z * Z) :
  lex3 a b = Lt <->
  fst (fst a) < fst (fst b) \/
  (fst (fst a) = fst (fst b) /\
   (snd (fst a) < snd (fst b) \/
    (snd (fst a) = snd (fst b) /\ snd a < snd b))).
Proof.
  destruct a as [[a1 a2] a3], b as [[b1 b2] b3]. unfold lex3. cbn [fst snd].
  destruct (Z.compare_spec a1 b1); destruct (Z.compare_spec a2 b2);
    destruct (Z.compare_spec a3 b3);
    split; intros; try discriminate; try reflexivity; lia.
Qed.

Lemma lex3_Eq (a b : Z * Z * Z) : lex3 a b = Eq <-> a = b.
Proof.
  destruct a as [[a1 a2] a3], b as [[b1 b2] b3]. unfold lex3.
  destruct (Z.compare_spec a1 b1); destruct (Z.compare_spec a2 b2);
    destruct (Z.compare_spec a3 b3);
    split; intros H'; try discriminate; try reflexivity;
    try (inversion H'; lia); subst; reflexivity.
Qed.

Lemma lex3_Gt (a b : Z * Z * Z) : lex3 a b = Gt <-> lex3 b a = Lt.
Proof.
  destruct a as [[a1 a2] a3], b as [[b1 b2] b3]. unfold lex3.
  rewrite (Z.compare_antisym a1 b1), (Z.compare_antisym a2 b2),
    (Z.compare_antisym a3 b3).
  destruct (a1 ?= b1); destruct (a2 ?= b2); destruct (a3 ?= b3);
    simpl; split; intros; congruence.
Qed.

(** [SFcompare] is the lexicographic order on the keys. *)
Lemma SFcompare_key (f g : spec_float) :
  SFcompare f g =
    match SFkey f, SFkey g with
    | Some a, Some b => Some (lex3 a b)
    | _, _ => None
    end.
Proof.
  destruct f as [s | s | | s m e], g as [t | t | | t n d];
    try destruct s; try destruct t; try reflexivity;
    cbn [SFcompare SFkey lex3].
  change (-1 ?= -1) with Eq. cbv iota.
  rewrite Z.compare_opp, (Z.compare_antisym e d).
  destruct (e ?= d); reflexivity.
Qed.

Lemma date_compare_lex3 (a b : date) :
  date_compare a b = lex3 (year a, month a, day a) (year b, month b, day b).
Proof.
  reflexivity.
Qed.

(** Transitivity of the key order, in the two forms the bounds need. *)
Lemma lex3_ge_le_trans (x b b' : Z * Z * Z) :
  is_Ge (Some (lex3 x b)) = true ->
  is_Le (Some (lex3 b' b)) = true ->
  is_Ge (Some (lex3 x b')) = true.
Proof.
  intros Hx Hb.
  destruct (lex3 x b') eqn:Hxb'; try reflexivity. exfalso.
  apply lex3_Lt in Hxb'.
  destruct (lex3 x b) eqn:Hxb; try discriminate;
    [apply lex3_Eq in Hxb | apply lex3_Gt, lex3_Lt in Hxb];
    (destruct (lex3 b' b) eqn:Hb'b; try discriminate;
     [apply lex3_Eq in Hb'b | apply lex3_Lt in Hb'b]);
    subst; lia.
Qed.

Lemma lex3_le_le_trans (x b b' : Z * Z * Z) :
  is_Le (Some (lex3 x b')) = true ->
  is_Le (Some (lex3 b' b)) = true ->
  is_Le (Some (lex3 x b)) = true.
Proof.
  intros Hx Hb.
  destruct (lex3 x b) eqn:Hxb; try reflexivity. exfalso.
  apply lex3_Gt, lex3_Lt in Hxb.
  destruct (lex3 x b') eqn:Hxb'; try discriminate;
    [apply lex3_Eq in Hxb' | apply lex3_Lt in Hxb'];
    (destruct (lex3 b' b) eqn:Hb'b; try discriminate;
     [apply lex3_Eq in Hb'b | apply lex3_Lt in Hb'b]);
    subst; lia.
Qed.

Lemma SFcompare_ge_le_trans (x b b' : spec_float) :
  is_Ge (SFcompare x b) = true ->
  is_Le (SFcompare b' b) = true ->
  is_Ge (SFcompare x b') = true.
Proof.
  rewrite !SFcompare_key.
  destruct (SFkey x), (SFkey b), (SFkey b'); try discriminate.
  apply lex3_ge_le_trans.
Qed.

Lemma SFcompare_le_le_trans (x b b' : spec_float) :
  is_Le (SFcompare x b') = true ->
  is_Le (SFcompare b' b) = true ->
  is_Le (SFcompare x b) = true.
Proof.
  rewrite !SFcompare_key.
  destruct (SFkey x), (SFkey b), (SFkey b'); try discriminate.
  apply lex3_le_le_trans.
Qed.

(** The value read by a class other than the base one fits that class. *)
Lemma get_fits (c : filter_class) (approach : CloseApproach) :
  c <> AttributeFilterClass ->
  exists x, get c approach = Ok x /\ bound_fits c x = true.
Proof.
  intros Hc. destruct c; try (now elim Hc); eexists; split; reflexivity.
Qed.

(** ** Reference values of the wrong kind *)

(** [create_filters] does not check the kind of its criteria.  An ordering
    filter (>= or <=) of a concrete class returns a verdict when its
    reference value is of the kind of the field it reads, and raises
    [TypeError] when it is not (a number for the date filter, a date for the
    others). *)
Theorem ordering_filter_needs_fitting_bound
        (c : filter_class) (o : comparator) (v : pyval)
        (approach : CloseApproach) :
  c <> AttributeFilterClass ->
  o <> op_eq ->
  is_None v = false ->
  if bound_fits c v
  then exists b, call (mkFilter c o v) approach = Ok b
  else call (mkFilter c o v) approach = Err TypeError.
Proof.
  intros Hc Ho Hv. rewrite call_active by exact Hv.
  destruct c; try (now elim Hc); destruct o; try (now elim Ho);
    destruct v; try discriminate; cbn; eexists; reflexivity.
Qed.

Lemma ordering_filter_needs_fitting_bound_witness :
  call (mkFilter DistanceFilterClass op_ge (VDate jan_1)) known_approach
    = Err TypeError.
Proof.
  apply (ordering_filter_needs_fitting_bound DistanceFilterClass op_ge
           (VDate jan_1) known_approach);
    [discriminate | discriminate | reflexivity].
Defined.

(** An equality filter of a concrete class never raises; with a reference
    value that is not of the kind of its field it rejects every approach. *)
Theorem equality_filter_never_raises
        (c : filter_class) (v : pyval) (approach : CloseApproach) :
  c <> AttributeFilterClass ->
  exists b,
    call (mkFilter c op_eq v) approach = Ok b /\
    (is_None v = false -> bound_fits c v = false -> b = false).
Proof.
  intros Hc.
  destruct c; try (now elim Hc); destruct v;
    cbn; eexists; (split; [reflexivity | intros; try discriminate; reflexivity]).
Qed.

Lemma equality_filter_never_raises_witness :
  exists b,
    call (mkFilter DateFilterClass op_eq (VInt 3)) known_approach = Ok b /\
    (is_None (VInt 3) = false ->
     bound_fits DateFilterClass (VInt 3) = false -> b = false).
Proof.
  apply (equality_filter_never_raises DateFilterClass (VInt 3) known_approach).
  discriminate.
Defined.

(** ** Equality against the two bounds *)

(** Whenever the >= and the <= filter of a class both return a verdict for a
    reference value, the == filter for that value returns their conjunction:
    asking for an exact date is the same as giving it as both start and end
    date. *)
Theorem equality_is_both_bounds
        (c : filter_class) (v : pyval) (approach : CloseApproach)
        (b1 b2 : bool) :
  call (mkFilter c op_ge v) approach = Ok b1 ->
  call (mkFilter c op_le v) approach = Ok b2 ->
  call (mkFilter c op_eq v) approach = Ok (b1 && b2).
Proof.
  destruct (is_None v) eqn:Hv.
  - destruct v; try discriminate. cbn. intros H1 H2.
    inversion H1; inversion H2; reflexivity.
  - rewrite !call_active by exact Hv.
    destruct (get c approach) as [x | e]; cbn [bind apply_op];
      [| discriminate].
    unfold py_ge, py_le, py_eq.
    destruct (as_num x) as [nx |], (as_num v) as [nv |];
      destruct x, v; try discriminate; intros H1 H2;
      inversion H1; inversion H2; subst; f_equal; apply is_Eq_Ge_Le.
Qed.

Lemma equality_is_both_bounds_witness :
  call (mkFilter DateFilterClass op_eq (VDate jan_1)) known_approach
    = Ok (true && true).
Proof.
  apply (equality_is_both_bounds DateFilterClass (VDate jan_1) known_approach
           true true); reflexivity.
Defined.

(** ** Relaxing a bound *)

(** Widening a date window keeps every match: an approach accepted with
    start date [s] is accepted with any earlier start date, and one accepted
    with end date [e] is accepted with any later end date. *)
Theorem date_window_widens (s s' e e' : date) (approach : CloseApproach) :
  is_Le (Some (date_compare s' s)) = true ->
  is_Le (Some (date_compare e e')) = true ->
  (call (DateFilter op_ge (VDate s)) approach = Ok true ->
   call (DateFilter op_ge (VDate s')) approach = Ok true) /\
  (call (DateFilter op_le (VDate e)) approach = Ok true ->
   call (DateFilter op_le (VDate e')) approach = Ok true).
Proof.
  intros Hs He. unfold DateFilter.
  rewrite !call_active by reflexivity.
  cbn [get bind apply_op]. unfold py_ge, py_le. cbn [as_num].
  rewrite !date_compare_lex3 in *.
  split; intros H; injection H as H'; f_equal.
  - apply (lex3_ge_le_trans _ (year s, month s, day s)); [exact H' | exact Hs].
  - apply (lex3_le_le_trans _ _ (year e, month e, day e));
      [exact H' | exact He].
Qed.

Lemma date_window_widens_witness :
  (call (DateFilter op_ge (VDate jan_2)) unknown_approach = Ok true ->
   call (DateFilter op_ge (VDate jan_1)) unknown_approach = Ok true) /\
  (call (DateFilter op_le (VDate jan_1)) known_approach = Ok true ->
   call (DateFilter op_le (VDate jan_2)) known_approach = Ok true).
Proof.
  destruct (date_window_widens jan_2 jan_1 jan_1 jan_2 unknown_approach
              eq_refl eq_refl) as [H1 _].
  destruct (date_window_widens jan_2 jan_1 jan_1 jan_2 known_approach
              eq_refl eq_refl) as [_ H2].
  split; assumption.
Defined.

(** Relaxing a float bound on distance, velocity or diameter keeps every
    match: an approach accepted with minimum [b] is accepted with any
    minimum [b' <= b], and one accepted with maximum [b'] is accepted with
    any maximum [b >= b']. *)
Theorem float_bound_relaxes
        (c : filter_class) (approach : CloseApproach) (x b b' : spec_float) :
  get c approach = Ok (VFloat x) ->
  is_Le (SFcompare b' b) = true ->
  (call (mkFilter c op_ge (VFloat b)) approach = Ok true ->
   call (mkFilter c op_ge (VFloat b')) approach = Ok true) /\
  (call (mkFilter c op_le (VFloat b')) approach = Ok true ->
   call (mkFilter c op_le (VFloat b)) approach = Ok true).
Proof.
  intros Hget Hb.
  rewrite !call_active by reflexivity. rewrite Hget.
  cbn [bind apply_op]. unfold py_ge, py_le. cbn [as_num num_compare].
  split; intros H; injection H as H'; f_equal.
  - apply (SFcompare_ge_le_trans x b b'); [exact H' | exact Hb].
  - apply (SFcompare_le_le_trans x b b'); [exact H' | exact Hb].
Qed.

Lemma float_bound_relaxes_witness :
  (call (mkFilter DistanceFilterClass op_ge (VFloat ten)) known_approach
     = Ok true ->
   call (mkFilter DistanceFilterClass op_ge (VFloat half)) known_approach
     = Ok true) /\
  (call (mkFilter DistanceFilterClass op_le (VFloat half)) known_approach
     = Ok true ->
   call (mkFilter DistanceFilterClass op_le (VFloat ten)) known_approach
     = Ok true).
Proof.
  apply (float_bound_relaxes DistanceFilterClass known_approach half ten half);
    reflexivity.
Defined.

(** ** A NaN as reference value *)

(** A NaN given as a bound is not [None], so the filter is active, and it
    rejects every approach: on distance, velocity, diameter and the hazardous
    flag, with any of the three comparators. *)
Theorem nan_bound_rejects_everything
        (c : filter_class) (o : comparator) (approach : CloseApproach) :
  bound_fits c (VFloat S754_nan) = true ->
  call (mkFilter c o (VFloat S754_nan)) approach = Ok false.
Proof.
  intros Hc. rewrite call_active by reflexivity.
  destruct c; try discriminate; destruct o; cbn [get bind apply_op];
    unfold py_eq, py_ge, py_le; cbn [as_num num_compare];
    try (destruct (distance approach); reflexivity);
    try (destruct (velocity approach); reflexivity);
    try (destruct (diameter (neo approach)); reflexivity);
    destruct (hazardous (neo approach)); reflexivity.
Qed.

Lemma nan_bound_rejects_everything_witness :
  call (mkFilter VelocityFilterClass op_le (VFloat S754_nan)) known_approach
    = Ok false.
Proof.
  apply (nan_bound_rejects_everything VelocityFilterClass op_le known_approach).
  reflexivity.
Defined.

(** * The printed form of a filter *)

Lemma append_inj_l (p a b : String.string) :
  String.append p a = String.append p b -> a = b.
Proof.
  induction p as [| c p IH]; cbn; intros H; [exact H |].
  injection H as H. now apply IH.
Qed.

Lemma append_nonempty (a : String.string) (c : Ascii.ascii) :
  String.append a (String.String c String.EmptyString) <> String.EmptyString.
Proof.
  destruct a; discriminate.
Qed.

Lemma append_inj_last (a b : String.string) (c : Ascii.ascii) :
  String.append a (String.String c String.EmptyString)
    = String.append b (String.String c String.EmptyString) ->
  a = b.
Proof.
  revert b. induction a as [| x a IH]; intros [| y b]; cbn; intros H.
  - reflexivity.
  - injection H as _ H. symmetry in H. now apply append_nonempty in H.
  - injection H as _ H. now apply append_nonempty in H.
  - injection H as Hx H. subst. f_equal. now apply IH.
Qed.

(** The text [__repr__] returns tells filters apart: two filters with the
    same text have the same class, the same comparator and reference values
    that print alike. *)
Theorem repr_identifies_filter (str : pyval -> String.string)
        (f1 f2 : AttributeFilter) :
  repr str f1 = repr str f2 ->
  cls f1 = cls f2 /\ op f1 = op f2 /\ str (value f1) = str (value f2).
Proof.
  destruct f1 as [c1 o1 v1], f2 as [c2 o2 v2]. unfold repr.
  cbn [cls op value]. intros H.
  assert (Hc : c1 = c2)
    by (destruct c1, c2; try reflexivity; cbn in H; discriminate H).
  subst c2. apply append_inj_l in H. apply append_inj_l in H.
  assert (Ho : o1 = o2)
    by (destruct o1, o2; try reflexivity; cbn in H; discriminate H).
  subst o2. apply append_inj_l in H. apply append_inj_l in H.
  apply append_inj_last in H. repeat split. exact H.
Qed.

Lemma repr_identifies_filter_witness :
  cls (DateFilter op_ge (VInt 3)) = cls (DateFilter op_ge (VBool true)) /\
  op (DateFilter op_ge (VInt 3)) = op (DateFilter op_ge (VBool true)) /\
  "x"%string = "x"%string.
Proof.
  apply (repr_identifies_filter (fun _ => "x"%string)
           (DateFilter op_ge (VInt 3)) (DateFilter op_ge (VBool true))).
  reflexivity.
Defined.

(** * Properties of the loader *)

Lemma mapM_length {A B : Type} (f : A -> lres B) (l : list A) (r : list B) :
  mapM f l = LOk r -> length r = length l.
Proof.
  revert r. induction l as [| x t IH]; intros r; cbn [mapM].
  - intros H. now inversion H.
  - destruct (f x) as [y | e]; cbn [lbind]; [| discriminate].
    destruct (mapM f t) as [ys | e]; cbn [lbind]; [| discriminate].
    intros H. inversion H. cbn. f_equal. now apply IH.
Qed.

Lemma mapM_Forall2 {A B : Type} (f : A -> lres B) (l : list A) (r : list B) :
  mapM f l = LOk r -> Forall2 (fun x y => f x = LOk y) l r.
Proof.
  revert r. induction l as [| x t IH]; intros r; cbn [mapM].
  - intros H. inversion H. constructor.
  - destruct (f x) as [y | e] eqn:Hx; cbn [lbind]; [| discriminate].
    destruct (mapM f t) as [ys | e]; cbn [lbind]; [| discriminate].
    intros H. inversion H. constructor; [exact Hx | now apply IH].
Qed.

Lemma mapM_ext_Forall {A B : Type} (f g : A -> lres B) (l : list A) :
  Forall (fun x => f x = g x) l -> mapM f l = mapM g l.
Proof.
  induction 1 as [| x t Hx _ IH]; cbn [mapM]; [reflexivity |].
  now rewrite Hx, IH.
Qed.

Lemma mapM_map {A B C : Type} (g : A -> B) (f : B -> lres C) (l : list A) :
  mapM f (map g l) = mapM (fun x => f (g x)) l.
Proof.
  induction l as [| x t IH]; cbn [mapM map]; [reflexivity |].
  now rewrite IH.
Qed.

Lemma mapM_all_ok {A B : Type} (g : A -> B) (f : A -> lres B) (l : list A) :
  Forall (fun x => f x = LOk (g x)) l -> mapM f l = LOk (map g l).
Proof.
  induction 1 as [| x t Hx _ IH]; cbn [mapM map]; [reflexivity |].
  now rewrite Hx, IH.
Qed.

(** When every element either succeeds or fails with [e], and some element
    fails, the comprehension fails with [e]. *)
Lemma mapM_fails {A B : Type} (f : A -> lres B) (l : list A) (e : load_exn)
      (x : A) :
  Forall (fun y => f y = LErr e \/ exists b, f y = LOk b) l ->
  In x l -> f x = LErr e ->
  mapM f l = LErr e.
Proof.
  induction 1 as [| y t Hy _ IH]; intros Hin Hx; [contradiction |].
  cbn [mapM]. destruct Hy as [Hy | [b Hy]]; rewrite Hy; cbn [lbind].
  - reflexivity.
  - destruct Hin as [-> | Hin]; [congruence |].
    now rewrite (IH Hin Hx).
Qed.

Lemma build_dict_strings (names : list String.string) (cells : list json) :
  build_dict (combine (map JStr names) cells)
    = LOk (combine (map JStr names) cells).
Proof.
  revert cells. induction names as [| n names IH]; intros [| c cells];
    cbn [map combine build_dict hashable]; try reflexivity.
  now rewrite IH.
Qed.

Lemma build_dict_error (pairs : list (json * json)) :
  build_dict pairs = LErr LoadTypeError \/ exists d, build_dict pairs = LOk d.
Proof.
  induction pairs as [| [k v] t IH]; cbn [build_dict].
  - right. now eexists.
  - destruct (hashable k); [| now left].
    destruct IH as [-> | [d ->]]; cbn [lbind]; [now left | right; now eexists].
Qed.

Lemma iterate_error (j : json) :
  iterate j = LErr LoadTypeError \/ exists l, iterate j = LOk l.
Proof.
  destruct j; cbn; try (now left); right; now eexists.
Qed.

Lemma dict_lookup_absent (names : list String.string) (cells : list json)
      (key : String.string) :
  ~ In key names ->
  dict_lookup (combine (map JStr names) cells) key = None.
Proof.
  revert cells. induction names as [| n names IH]; intros [| c cells] Hin;
    cbn [map combine dict_lookup is_key]; try reflexivity.
  rewrite IH by (intros H; apply Hin; now right).
  destruct (String.eqb_spec n key) as [-> | _]; [| reflexivity].
  elim Hin. now left.
Qed.

(** With distinct column names, the dictionary of a row holds for a name the
    cell at that name's position. *)
Lemma dict_lookup_column (names : list String.string) (cells : list json)
      (key : String.string) (i : nat) (v : json) :
  NoDup names ->
  nth_error names i = Some key ->
  nth_error cells i = Some v ->
  dict_lookup (combine (map JStr names) cells) key = Some v.
Proof.
  intros Hnd. revert cells i.
  induction Hnd as [| n names Hn Hnd IH]; intros cells i Hk Hv.
  - destruct i; discriminate.
  - destruct cells as [| c cells]; [destruct i; discriminate |].
    cbn [map combine dict_lookup is_key].
    destruct i as [| i]; cbn [nth_error] in Hk, Hv.
    + inversion Hk; inversion Hv; subst.
      rewrite dict_lookup_absent by exact Hn.
      now rewrite String.eqb_refl.
    + now rewrite (IH cells i Hk Hv).
Qed.

(** A row that stops before a column has no entry for it. *)
Lemma dict_lookup_short (names : list String.string) (cells : list json)
      (key : String.string) (i : nat) :
  NoDup names ->
  nth_error names i = Some key ->
  (length cells <= i)%nat ->
  dict_lookup (combine (map JStr names) cells) key = None.
Proof.
  intros Hnd. revert cells i.
  induction Hnd as [| n names Hn Hnd IH]; intros cells i Hk Hlen.
  - destruct i; discriminate.
  - destruct cells as [| c cells]; [reflexivity |].
    cbn [map combine dict_lookup is_key].
    destruct i as [| i]; cbn [nth_error length] in Hk, Hlen; [lia |].
    rewrite (IH cells i Hk) by lia.
    destruct (String.eqb_spec n key) as [-> | _]; [| reflexivity].
    elim Hn. eapply nth_error_In. exact Hk.
Qed.

Section ExtractProperties.

Context {T : Type}.
Variable init : json -> json -> json -> json -> lres T.

(** A file whose ["data"] holds no row loads as the empty collection; the
    ["fields"] entry is not looked at, and may be missing. *)
Theorem load_approaches_no_rows (json_data data : json) :
  subscript json_data "data" = LOk data ->
  iterate data = LOk [] ->
  load_approaches init json_data = LOk [].
Proof.
  intros Hd Hi. unfold load_approaches. now rewrite Hd; cbn; rewrite Hi.
Qed.

(** As soon as there is a row, ["fields"] is needed: when the lookup of
    ["fields"] raises, loading raises the same exception, before any close
    approach is constructed. *)
Theorem load_approaches_needs_fields (json_data data row : json)
        (rest : list json) (e : load_exn) :
  subscript json_data "data" = LOk data ->
  iterate data = LOk (row :: rest) ->
  subscript json_data "fields" = LErr e ->
  load_approaches init json_data = LErr e.
Proof.
  intros Hd Hi Hf. unfold load_approaches. rewrite Hd. cbn [lbind].
  rewrite Hi. cbn [lbind mapM]. unfold row_dict at 1. now rewrite Hf.
Qed.

(** When loading succeeds, the close approaches correspond to the rows one
    to one and in order: the approach at each position is the one
    constructed from the dictionary of the row at that position, so no row
    is skipped, repeated or moved. *)
Theorem load_approaches_row_by_row (json_data data : json)
        (rows : list json) (approaches : list T) :
  subscript json_data "data" = LOk data ->
  iterate data = LOk rows ->
  load_approaches init json_data = LOk approaches ->
  length approaches = length rows /\
  Forall2 (fun row a =>
             exists d,
               row_dict json_data row = LOk d /\
               approach_of_dict init d = LOk a)
          rows approaches.
Proof.
  intros Hd Hi. unfold load_approaches. rewrite Hd. cbn [lbind].
  rewrite Hi. cbn [lbind].
  destruct (mapM (row_dict json_data) rows) as [dicts |] eqn:Hm;
    cbn [lbind]; [| discriminate].
  intros H. split.
  - apply mapM_length in H. apply mapM_length in Hm. congruence.
  - apply mapM_Forall2 in Hm. apply mapM_Forall2 in H.
    clear Hi. revert approaches H.
    induction Hm as [| row d rows' dicts' Hrow _ IH]; intros approaches H;
      inversion H; subst; constructor.
    + exists d. split; assumption.
    + now apply IH.
Qed.

(** All row dictionaries are built before the first close approach is: a
    row that is not iterable makes loading raise [TypeError], whatever the
    constructor would do on the rows before it. *)
Theorem load_approaches_bad_row (json_data data fields row : json)
        (rows : list json) :
  subscript json_data "data" = LOk data ->
  iterate data = LOk rows ->
  subscript json_data "fields" = LOk fields ->
  In row rows ->
  iterate row = LErr LoadTypeError ->
  load_approaches init json_data = LErr LoadTypeError.
Proof.
  intros Hd Hi Hf Hin Hrow. unfold load_approaches. rewrite Hd. cbn [lbind].
  rewrite Hi. cbn [lbind].
  rewrite (mapM_fails (row_dict json_data) rows LoadTypeError row);
    try assumption; try reflexivity.
  - apply Forall_forall. intros r _. unfold row_dict. rewrite Hf.
    cbn [lbind].
    destruct (iterate_error fields) as [-> | [names ->]]; cbn [lbind];
      [now left |].
    destruct (iterate_error r) as [-> | [cells ->]]; cbn [lbind];
      [now left |].
    apply build_dict_error.
  - unfold row_dict. rewrite Hf. cbn [lbind].
    destruct (iterate_error fields) as [-> | [names ->]]; cbn [lbind];
      [reflexivity |].
    now rewrite Hrow.
Qed.

(** Cells are taken by column name, not by position.  For a table with
    distinct column names where every row has a cell for every column, each
    close approach is constructed from the cells of its row in the columns
    named des, cd, dist and v_rel, wherever these columns stand; other
    columns and surplus cells are ignored, and the first constructor failure
    is the failure of the load. *)
Theorem load_approaches_by_column
        (json_data : json) (names : list String.string)
        (rows : list (list json)) (i_des i_cd i_dist i_v_rel : nat) :
  subscript json_data "data" = LOk (JArr (map JArr rows)) ->
  subscript json_data "fields" = LOk (JArr (map JStr names)) ->
  NoDup names ->
  nth_error names i_des = Some "des"%string ->
  nth_error names i_cd = Some "cd"%string ->
  nth_error names i_dist = Some "dist"%string ->
  nth_error names i_v_rel = Some "v_rel"%string ->
  Forall (fun cells => (length names <= length cells)%nat) rows ->
  load_approaches init json_data =
    mapM (fun cells =>
            init (nth i_des cells JNull) (nth i_cd cells JNull)
                 (nth i_dist cells JNull) (nth i_v_rel cells JNull))
         rows.
Proof.
  intros Hd Hf Hnd Hdes Hcd Hdist Hv Hrows.
  unfold load_approaches. rewrite Hd. cbn [lbind iterate].
  rewrite mapM_map.
  rewrite (mapM_all_ok (fun cells => combine (map JStr names) cells)).
  - cbn [lbind]. rewrite mapM_map.
    apply mapM_ext_Forall.
    eapply Forall_impl; [| exact Hrows].
    intros cells Hlen. cbn beta in *. unfold approach_of_dict, dict_get.
    assert (Hcell : forall i key,
               nth_error names i = Some key ->
               dict_lookup (combine (map JStr names) cells) key
                 = Some (nth i cells JNull)).
    { intros i key Hk.
      apply (dict_lookup_column names cells key i); [exact Hnd | exact Hk |].
      apply nth_error_nth'.
      assert (i < length names)%nat
        by (apply nth_error_Some; congruence).
      lia. }
    rewrite (Hcell _ _ Hdes), (Hcell _ _ Hcd), (Hcell _ _ Hdist),
      (Hcell _ _ Hv).
    reflexivity.
  - apply Forall_forall. intros cells _. unfold row_dict. rewrite Hf.
    cbn [lbind iterate]. apply build_dict_strings.
Qed.

(** A row too short to reach the des column is not padded: loading raises
    [KeyError] for des when this happens in the first row. *)
Theorem load_approaches_short_row
        (json_data : json) (names : list String.string)
        (cells : list json) (rest : list (list json)) (i_des : nat) :
  subscript json_data "data" = LOk (JArr (map JArr (cells :: rest))) ->
  subscript json_data "fields" = LOk (JArr (map JStr names)) ->
  NoDup names ->
  nth_error names i_des = Some "des"%string ->
  (length cells <= i_des)%nat ->
  load_approaches init json_data = LErr (KeyError "des").
Proof.
  intros Hd Hf Hnd Hdes Hlen.
  unfold load_approaches. rewrite Hd. cbn [lbind iterate].
  rewrite mapM_map.
  rewrite (mapM_all_ok (fun cells => combine (map JStr names) cells)).
  - cbn [lbind map mapM]. unfold approach_of_dict at 1, dict_get at 1.
    now rewrite (dict_lookup_short names cells "des" i_des Hnd Hdes Hlen).
  - apply Forall_forall. intros r _. unfold row_dict. rewrite Hf.
    cbn [lbind iterate]. apply build_dict_strings.
Qed.

End ExtractProperties.

Lemma sample_names_NoDup : NoDup sample_names.
Proof.
  unfold sample_names.
  repeat (apply NoDup_cons; [cbn; intuition discriminate |]).
  apply NoDup_nil.
Defined.

Lemma load_approaches_no_rows_witness :
  load_approaches keep_args (JObj [("data"%string, JArr [])]) = LOk [].
Proof.
  apply (load_approaches_no_rows keep_args
           (JObj [("data"%string, JArr [])]) (JArr [])); reflexivity.
Defined.

Lemma load_approaches_needs_fields_witness :
  load_approaches keep_args (JObj [("data"%string, JArr [JArr sample_row])])
    = LErr (KeyError "fields").
Proof.
  apply (load_approaches_needs_fields keep_args
           (JObj [("data"%string, JArr [JArr sample_row])])
           (JArr [JArr sample_row]) (JArr sample_row) []); reflexivity.
Defined.

Lemma load_approaches_row_by_row_witness :
  length [(JStr "433", JStr "2020-Jan-01 12:00", JStr "0.05", JStr "10.1");
          (JStr "99942", JStr "2029-Apr-13 21:46", JStr "0.0002", JStr "7.4")]
    = length [JArr sample_row; JArr second_row] /\
  Forall2 (fun row a =>
             exists d,
               row_dict (table_of [JArr sample_row; JArr second_row]) row
                 = LOk d /\
               approach_of_dict keep_args d = LOk a)
          [JArr sample_row; JArr second_row]
          [(JStr "433", JStr "2020-Jan-01 12:00", JStr "0.05", JStr "10.1");
           (JStr "99942", JStr "2029-Apr-13 21:46", JStr "0.0002",
            JStr "7.4")].
Proof.
  apply (load_approaches_row_by_row keep_args
           (table_of [JArr sample_row; JArr second_row])
           (JArr [JArr sample_row; JArr second_row])
           [JArr sample_row; JArr second_row]); reflexivity.
Defined.

Lemma load_approaches_bad_row_witness :
  load_approaches keep_args (table_of [JArr sample_row; JInt 3])
    = LErr LoadTypeError.
Proof.
  apply (load_approaches_bad_row keep_args
           (table_of [JArr sample_row; JInt 3])
           (JArr [JArr sample_row; JInt 3])
           (JArr (map JStr sample_names)) (JInt 3)
           [JArr sample_row; JInt 3]);
    try reflexivity.
  right. left. reflexivity.
Defined.

Lemma load_approaches_by_column_witness :
  load_approaches keep_args (table_of (map JArr [sample_row])) =
    mapM (fun cells =>
            keep_args (nth 1 cells JNull) (nth 4 cells JNull)
                      (nth 0 cells JNull) (nth 3 cells JNull))
         [sample_row].
Proof.
  apply (load_approaches_by_column keep_args (table_of (map JArr [sample_row]))
           sample_names [sample_row] 1 4 0 3);
    try reflexivity.
  - exact sample_names_NoDup.
  - repeat constructor.
Defined.

Lemma load_approaches_short_row_witness :
  load_approaches keep_args (table_of (map JArr [[JStr "0.05"]]))
    = LErr (KeyError "des").
Proof.
  apply (load_approaches_short_row keep_args
           (table_of (map JArr [[JStr "0.05"]]))
           sample_names [JStr "0.05"] [] 1);
    try reflexivity.
  exact sample_names_NoDup.
Defined.
